(** * A Todo REST service: Express handlers over a SQLite table

    Shallow embedding of [src/server.js].  The file has three layers:

    - [Js]      : the JavaScript values found in a parsed JSON body, and the
                  string functions of validator.js that the validation
                  chains call ([isEmpty], [isBoolean], [trim], [escape]);
    - [Sqlite]  : the [tasks] table and the five statements the handlers
                  send to it;
    - [Server]  : the validation chains, the six route handlers, the error
                  middleware and the order in which they are registered on
                  the application.

    Strings are sequences of code units below 256; timestamps are clock
    readings in whole seconds (the resolution of CURRENT_TIMESTAMP, whose
    text form orders the same way).

    What the source leaves to its environment is an input of the model:
    the clock reading [now] of a request, the error [fault] with which the
    driver may fail a statement, SQLite's reading [to_integer] of a text
    as an integer, and whether NODE_ENV is [production]. *)

From Stdlib Require Import ZArith Ascii String DecimalString DecimalPos DecimalZ.
From stdpp Require Import gmap strings list fin_maps sorting.

Local Open Scope Z_scope.

(** ** JavaScript values and validator.js *)

Module Js.

(** A scalar value of a field of [req.body] after [express.json()]:
    absent, [null], a boolean, an integer-valued number, or a string.
    Arrays, objects and numbers with a fraction are left out: what is
    proved of a body is proved of the bodies whose fields are such scalars.
    (On an array express-validator runs a validator on each element.) *)
Inductive value :=
| Undefined
| Null
| Bool (b : bool)
| Num (n : Z)
| Str (s : string).

#[global] Instance value_eq_dec : EqDecision value.
Proof. solve_decision. Defined.

(** Decimal text of an integer, as [String(n)] gives it for an integer
    below 10^21 in absolute value. *)
Definition decimal (n : Z) : string := NilZero.string_of_int (Z.to_int n).

(** The [toString] of express-validator: what a standard validator or
    sanitizer is handed. *)
Definition toString (v : value) : string :=
  match v with
  | Undefined | Null => EmptyString
  | Bool true => "true"
  | Bool false => "false"
  | Num n => decimal n
  | Str s => s
  end.

(** [v ? 1 : 0] and [!!v] go through this. *)
Definition truthy (v : value) : bool :=
  match v with
  | Undefined | Null => false
  | Bool b => b
  | Num n => negb (n =? 0)
  | Str s => negb (String.eqb s EmptyString)
  end.

(** Code units matched by [\s]. *)
Definition is_space (c : ascii) : bool :=
  let n := nat_of_ascii c in
  (Nat.leb 9 n && Nat.leb n 13) || Nat.eqb n 32 || Nat.eqb n 160.

Fixpoint ltrim (s : string) : string :=
  match s with
  | EmptyString => EmptyString
  | String c s' => if is_space c then ltrim s' else s
  end.

Fixpoint rtrim (s : string) : string :=
  match s with
  | EmptyString => EmptyString
  | String c s' =>
      match rtrim s' with
      | EmptyString => if is_space c then EmptyString else String c EmptyString
      | r => String c r
      end
  end.

(** validator.js [trim(str)] with no [chars]: [rtrim(ltrim(str))]. *)
Definition trim (s : string) : string := rtrim (ltrim s).

(** The eight code units that validator.js [escape] replaces. *)
Definition entity (c : ascii) : option string :=
  match nat_of_ascii c with
  | 38%nat => Some "&amp;"
  | 34%nat => Some "&quot;"
  | 39%nat => Some "&#x27;"
  | 60%nat => Some "&lt;"
  | 62%nat => Some "&gt;"
  | 47%nat => Some "&#x2F;"
  | 92%nat => Some "&#x5C;"
  | 96%nat => Some "&#96;"
  | _ => None
  end%string.

Fixpoint escape (s : string) : string :=
  match s with
  | EmptyString => EmptyString
  | String c s' =>
      match entity c with
      | Some e => String.append e (escape s')
      | None => String c (escape s')
      end
  end.

(** validator.js [isEmpty(str)] with its default options
    ([ignore_whitespace: false]): [str.length === 0]. *)
Definition isEmpty (s : string) : bool := String.eqb s EmptyString.

(** validator.js [isBoolean(str)] with its default options (strict). *)
Definition isBoolean (s : string) : bool :=
  (String.eqb s "true" || String.eqb s "false" ||
   String.eqb s "1" || String.eqb s "0")%string.

End Js.

(** ** The [tasks] table and its statements *)

Module Sqlite.

(** The columns of a row besides its key.  [title] is declared NOT NULL
    with TEXT affinity, [description] is nullable TEXT, [completed] is an
    INTEGER; the two timestamps are filled by CURRENT_TIMESTAMP. *)
Record task := {
  title : string;
  description : option string;
  completed : Z;
  created_at : Z;
  updated_at : Z
}.

#[global] Instance task_eq_dec : EqDecision task.
Proof. solve_decision. Defined.

(** A result row of [SELECT *]: the [id] and the other columns. *)
Definition row : Type := Z * task.

(** The table, keyed by [id INTEGER PRIMARY KEY], and the counter that
    AUTOINCREMENT keeps in [sqlite_sequence]. *)
Record database := {
  tasks : gmap Z task;
  seq : Z
}.

(** The database right after [CREATE TABLE IF NOT EXISTS] on a new file. *)
Definition empty : database := {| tasks := ∅; seq := 0 |}.

(** A value bound to a [?]. *)
Inductive param :=
| PNull
| PInt (n : Z)
| PText (s : string).

(** How node-sqlite3 binds a JavaScript value: [undefined] is left
    unbound, which SQLite reads as NULL. *)
Definition bind (v : Js.value) : param :=
  match v with
  | Js.Undefined | Js.Null => PNull
  | Js.Bool b => PInt (if b then 1 else 0)
  | Js.Num n => PInt n
  | Js.Str s => PText s
  end.

(** The error object handed to a callback. *)
Record error := {
  message : string;
  stack : string
}.

(** An error of the driver with a given message.  Of its stack the model
    keeps the first line; the frames after it are left out. *)
Definition raise (msg : string) : error :=
  {| message := msg; stack := String.append "Error: " msg |}.

Definition datatype_mismatch : error :=
  raise "SQLITE_MISMATCH: datatype mismatch".

Definition not_null_title : error :=
  raise "SQLITE_CONSTRAINT: NOT NULL constraint failed: tasks.title".

(** The five statements of [server.js], indexed by what their callback
    receives on success: [this.lastID], the rows, the row, [this.changes]. *)
Inductive statement : Type → Type :=
| Insert (title description : param) (completed : Z) : statement Z
| SelectPage (completed : option Z) (limit offset : param) : statement (list row)
| SelectById (id : param) : statement (option row)
| Update (title description : param) (completed : Z) (id : param) : statement nat
| Delete (id : param) : statement nat.

(** A parameter stored in a TEXT column. *)
Definition as_text (p : param) : option string :=
  match p with
  | PNull => None
  | PInt n => Some (Js.decimal n)
  | PText s => Some s
  end.

(** Largest key of the table, 0 when it is empty. *)
Definition max_rowid (t : gmap Z task) : Z :=
  map_fold (λ k _ acc, Z.max k acc) 0 t.

(** AUTOINCREMENT: one more than the largest key that ever existed. *)
Definition next_rowid (db : database) : Z :=
  Z.max (seq db) (max_rowid (tasks db)) + 1.

(** [ORDER BY created_at DESC]. *)
Definition newer_first (a b : row) : Prop :=
  (created_at b.2 <= created_at a.2)%Z.

#[global] Instance newer_first_dec : RelDecision newer_first.
Proof. intros a b. unfold newer_first. apply _. Defined.

(** [LIMIT l OFFSET o]: a negative limit is no limit, a negative offset
    is 0. *)
Definition page (l o : Z) (rows : list row) : list row :=
  let rest := drop (Z.to_nat o) rows in
  if l <? 0 then rest else take (Z.to_nat l) rest.

(** [WHERE completed = ?], when the clause is there. *)
Definition where_completed (c : option Z) (r : row) : bool :=
  match c with
  | None => true
  | Some n => completed r.2 =? n
  end.

Section Exec.

(** The integer that a TEXT value converts to without loss under NUMERIC
    affinity, if there is one.  SQLite applies it to a text compared
    with the INTEGER key and to the text given as LIMIT or OFFSET. *)
Variable to_integer : string → option Z.

Definition as_integer (p : param) : option Z :=
  match p with
  | PNull => None
  | PInt n => Some n
  | PText s => to_integer s
  end.

(** The key that [WHERE id = ?] selects, if a row has it. *)
Definition find (db : database) (id : param) : option row :=
  k ← as_integer id; r ← tasks db !! k; Some (k, r).

(** The rows of a page.  Rows with the same [created_at] come in an
    order that the statement does not fix (SQLite gives them by
    ascending id); the model takes the merge sort of the enumeration of
    the table, and nothing below depends on that order. *)
Definition select_page (db : database) (c : option Z) (l o : Z) : list row :=
  page l o (merge_sort newer_first
              (filter (λ r, where_completed c r = true) (map_to_list (tasks db)))).

(** One statement, run at clock reading [now]: the new database and
    what the callback receives. *)
Definition exec {T} (now : Z) (db : database) (s : statement T)
  : database * (error + T) :=
  match s in statement T return database * (error + T) with
  | Insert t d c =>
      match as_text t with
      | None => (db, inl not_null_title)
      | Some t' =>
          let id := next_rowid db in
          ({| tasks := <[id := {| title := t'; description := as_text d;
                                  completed := c;
                                  created_at := now; updated_at := now |}]>
                         (tasks db);
              seq := id |},
           inr id)
      end
  | SelectPage c l o =>
      match as_integer l, as_integer o with
      | Some l', Some o' => (db, inr (select_page db c l' o'))
      | _, _ => (db, inl datatype_mismatch)
      end
  | SelectById id => (db, inr (find db id))
  | Update t d c id =>
      match find db id with
      | None => (db, inr 0%nat)
      | Some (k, r) =>
          match as_text t with
          | None => (db, inl not_null_title)
          | Some t' =>
              ({| tasks := <[k := {| title := t'; description := as_text d;
                                     completed := c;
                                     created_at := created_at r;
                                     updated_at := now |}]>
                             (tasks db);
                  seq := seq db |},
               inr 1%nat)
          end
      end
  | Delete id =>
      match find db id with
      | None => (db, inr 0%nat)
      | Some (k, _) =>
          ({| tasks := delete k (tasks db); seq := seq db |}, inr 1%nat)
      end
  end.

End Exec.

(** A conversion for the concrete runs: the texts that are integer
    literals.  SQLite reads more texts as integers than these (a text with
    blanks around it, [1.0]); the runs use texts on which the two agree. *)
Definition integer_literal (s : string) : option Z :=
  Z.of_int <$> NilZero.int_of_string s.

End Sqlite.

(** ** The application *)

Module Server.

Import Sqlite.

Inductive method := GET | POST | PUT | DELETE.

#[global] Instance method_eq_dec : EqDecision method.
Proof. solve_decision. Defined.

(** Where the request path leads: the three path shapes on which the
    application registers routes, [:id] being any path segment, and every
    other path. *)
Inductive target :=
| Root
| Tasks
| TaskId (id : string)
| Elsewhere (path : string).

(** [req.query] and [req.body] are objects; a key that is absent reads as
    [undefined].  [malformed] is the error that [express.json()] raises
    when the request has a body that it cannot parse. *)
Record request := {
  method_of : method;
  target_of : target;
  malformed : option error;
  query : gmap string string;
  body_of : gmap string Js.value
}.

Definition get (k : string) (o : gmap string Js.value) : Js.value :=
  default Js.Undefined (o !! k).

(** One entry of [errors.array()]. *)
Record field_error := {
  path : string;
  msg : string;
  value : Js.value
}.

Inductive json :=
| Created (id : Z) (title description : Js.value) (completed : bool)
| Errors (errors : list field_error)
| TaskList (tasks : list row) (count : nat)
| Task (task : row)
| Message (message : string) (taskId : option string)
| Error (error : string).

(** [res.json], [res.send] of a text, and the HTML page of Express's own
    final handler, given by the message it shows. *)
Inductive payload :=
| Json (j : json)
| Text (s : string)
| Html (s : string).

Record response := {
  status : Z;
  content : payload
}.

(** What a handler ends with: a response, or [next(err)]. *)
Inductive outcome :=
| Send (r : response)
| Next (err : error).

(** A handler either ends at once or sends one statement to the database
    and ends in its callback. *)
Inductive action :=
| Done (o : outcome)
| Query {T} (s : statement T) (callback : error + T → outcome).

(** *** express-validator chains *)

(** A chain is a field and the validators and sanitizers called on it, in
    the order of the calls.  [.withMessage] gives the validator before it
    its message; [.not()] negates the one after it. *)
Inductive item :=
| Validator (negated : bool) (test : string → bool) (message : string)
| Sanitizer (f : string → string).

Record chain := body {
  field : string;
  optional : bool;
  items : list item
}.

Definition notEmpty (message : string) : item := Validator true Js.isEmpty message.
Definition isBoolean (message : string) : item := Validator false Js.isBoolean message.
Definition trim : item := Sanitizer Js.trim.
Definition escape : item := Sanitizer Js.escape.

(** Items run in order; a validator sees the value the sanitizers before
    it have left in [req.body], and a sanitizer writes its result back.
    This is the run on a scalar value, the only values of the model. *)
Definition run_item (f : string) (st : list field_error * gmap string Js.value)
    (i : item) : list field_error * gmap string Js.value :=
  let v := get f st.2 in
  match i with
  | Validator negated test message =>
      if xorb negated (test (Js.toString v)) then st
      else (st.1 ++ [{| path := f; msg := message; value := v |}], st.2)
  | Sanitizer g => (st.1, <[f := Js.Str (g (Js.toString v))]> st.2)
  end.

(** An optional chain is skipped when its field is [undefined]. *)
Definition run_chain (st : list field_error * gmap string Js.value)
    (c : chain) : list field_error * gmap string Js.value :=
  match optional c, get (field c) st.2 with
  | true, Js.Undefined => st
  | _, _ => foldl (run_item (field c)) st (items c)
  end.

(** The chains as middleware, then [validationResult(req)]: the errors
    and the body the handler sees. *)
Definition run (chains : list chain) (b : gmap string Js.value)
    : list field_error * gmap string Js.value :=
  foldl run_chain ([], b) chains.

Definition validateTask : list chain := [
  body "title" false [notEmpty "Title is required"; trim; escape];
  body "description" true [trim; escape];
  body "completed" true [isBoolean "Completed must be a boolean"]
].

(** *** Handlers *)

Definition errorHandler (err : error) : response :=
  {| status := 500; content := Json (Error "Something went wrong!") |}.

Definition root (req : request) : action :=
  Done (Send {| status := 200;
                content := Text "Welcome to the Todo API! Use /tasks for managing tasks." |}).

Definition id_param (req : request) : string :=
  match target_of req with
  | TaskId id => id
  | _ => EmptyString
  end.

Definition not_found : outcome :=
  Send {| status := 404; content := Json (Message "Task not found" None) |}.

Definition post_tasks (req : request) : action :=
  let (errors, b) := run validateTask (body_of req) in
  match errors with
  | _ :: _ => Done (Send {| status := 400; content := Json (Errors errors) |})
  | [] =>
      let title := get "title" b in
      let description := get "description" b in
      let completed := get "completed" b in
      Query (Insert (bind title) (bind description)
                    (if Js.truthy completed then 1 else 0))
        (λ res, match res with
                | inl err => Next err
                | inr lastID =>
                    Send {| status := 201;
                            content := Json (Created lastID title description
                                               (Js.truthy completed)) |}
                end)
  end.

Definition get_tasks (req : request) : action :=
  let completed := query req !! "completed" in
  let limit := from_option PText (PInt 10) (query req !! "limit") in
  let offset := from_option PText (PInt 0) (query req !! "offset") in
  Query (SelectPage ((λ c, if String.eqb c "true" then 1 else 0) <$> completed)
                    limit offset)
    (λ res, match res with
            | inl err => Next err
            | inr rows =>
                Send {| status := 200;
                        content := Json (TaskList rows (length rows)) |}
            end).

Definition get_task (req : request) : action :=
  let id := id_param req in
  Query (SelectById (PText id))
    (λ res, match res with
            | inl err => Next err
            | inr None => not_found
            | inr (Some r) => Send {| status := 200; content := Json (Task r) |}
            end).

Definition put_task (req : request) : action :=
  let (errors, b) := run validateTask (body_of req) in
  match errors with
  | _ :: _ => Done (Send {| status := 400; content := Json (Errors errors) |})
  | [] =>
      let id := id_param req in
      let title := get "title" b in
      let description := get "description" b in
      let completed := get "completed" b in
      Query (Update (bind title) (bind description)
                    (if Js.truthy completed then 1 else 0) (PText id))
        (λ res, match res with
                | inl err => Next err
                | inr O => not_found
                | inr _ =>
                    Send {| status := 200;
                            content := Json (Message "Task updated" (Some id)) |}
                end)
  end.

Definition delete_task (req : request) : action :=
  let id := id_param req in
  Query (Delete (PText id))
    (λ res, match res with
            | inl err => Next err
            | inr O => not_found
            | inr _ =>
                Send {| status := 200;
                        content := Json (Message "Task deleted" (Some id)) |}
            end).

(** *** The middleware stack *)

Inductive pattern := AtRoot | AtTasks | AtTaskId.

Definition matches (p : pattern) (t : target) : bool :=
  match p, t with
  | AtRoot, Root | AtTasks, Tasks | AtTaskId, TaskId _ => true
  | _, _ => false
  end.

(** [app.use(express.json())], [app.use(fn)] with a four-argument [fn],
    and [app.METHOD(path, ...)]. *)
Inductive layer :=
| Use_json
| Use (handle_error : error → response)
| Route (m : method) (p : pattern) (handle : request → action).

(** The layers, in the order [server.js] registers them. *)
Definition app : list layer := [
  Use_json;
  Use errorHandler;
  Route GET AtRoot root;
  Route POST AtTasks post_tasks;
  Route GET AtTasks get_tasks;
  Route GET AtTaskId get_task;
  Route PUT AtTaskId put_task;
  Route DELETE AtTaskId delete_task
].

Definition method_name (m : method) : string :=
  match m with
  | GET => "GET" | POST => "POST" | PUT => "PUT" | DELETE => "DELETE"
  end.

Definition url (t : target) : string :=
  match t with
  | Root => "/"
  | Tasks => "/tasks"
  | TaskId id => String.append "/tasks/" id
  | Elsewhere p => p
  end.

Section Dispatch.

Variable to_integer : string → option Z.

(** Whether NODE_ENV is [production]. *)
Variable production : bool.

(** Express's final handler for an error that no middleware took: a
    driver error carries no status, so 500, and the page shows the stack
    unless in production. *)
Definition finalhandler (err : error) : response :=
  {| status := 500;
     content := Html (if production then "Internal Server Error"
                      else stack err) |}.

(** ... and for a request that no route matched. *)
Definition cannot (req : request) : response :=
  {| status := 404;
     content := Html (String.append "Cannot "
                        (String.append (method_name (method_of req))
                           (String.append " " (url (target_of req))))) |}.

(** Run a handler.  [fault] is the error the driver raises on the
    statement for a reason outside the model (an I/O failure, a full
    disk); the statement then leaves the table as it was. *)
Definition perform (now : Z) (fault : option error) (db : database)
    (a : action) : database * outcome :=
  match a with
  | Done o => (db, o)
  | Query s callback =>
      match fault with
      | Some err => (db, callback (inl err))
      | None => let (db', res) := exec to_integer now db s in
                (db', callback res)
      end
  end.

(** After [next(err)] the router goes on through the layers registered
    after the current one, skips the routes and the other middleware, and
    calls the first error middleware. *)
Fixpoint on_error (rest : list layer) (err : error) : response :=
  match rest with
  | [] => finalhandler err
  | Use handle_error :: _ => handle_error err
  | Use_json :: rest' | Route _ _ _ :: rest' => on_error rest' err
  end.

(** A request goes through the layers in order: the body parser, which
    calls [next(err)] on a body it cannot parse; then, skipping the error
    middleware, the first route that matches. *)
Fixpoint dispatch (stack : list layer) (now : Z) (fault : option error)
    (db : database) (req : request) : database * response :=
  match stack with
  | [] => (db, cannot req)
  | Use_json :: rest =>
      match malformed req with
      | Some err => (db, on_error rest err)
      | None => dispatch rest now fault db req
      end
  | Use _ :: rest => dispatch rest now fault db req
  | Route m p handle :: rest =>
      if bool_decide (m = method_of req) && matches p (target_of req) then
        let (db', o) := perform now fault db (handle req) in
        match o with
        | Send r => (db', r)
        | Next err => (db', on_error rest err)
        end
      else dispatch rest now fault db req
  end.

(** The server on one request. *)
Definition serve (now : Z) (fault : option error) (db : database)
    (req : request) : database * response :=
  dispatch app now fault db req.

End Dispatch.

End Server.

(** ** Vocabulary of the statements *)

Import Sqlite Server.

(** A text made of whitespace only. *)
Fixpoint blank (s : string) : bool :=
  match s with
  | EmptyString => true
  | String c s' => Js.is_space c && blank s'
  end.

(** What the [trim] and [escape] sanitizers leave of a value. *)
Definition clean (v : Js.value) : Js.value :=
  Js.Str (Js.escape (Js.trim (Js.toString v))).

(** ... and of a value whose chain is optional. *)
Definition clean_optional (v : Js.value) : Js.value :=
  match v with
  | Js.Undefined => Js.Undefined
  | _ => clean v
  end.

(** The entries of [errors.array()] that a [title] and a [completed] of a
    body bring. *)
Definition title_errors (v : Js.value) : list field_error :=
  if Js.isEmpty (Js.toString v)
  then [{| path := "title"; msg := "Title is required"; value := v |}]
  else [].

Definition completed_errors (v : Js.value) : list field_error :=
  match v with
  | Js.Undefined => []
  | _ => if Js.isBoolean (Js.toString v) then []
         else [{| path := "completed"; msg := "Completed must be a boolean";
                  value := v |}]
  end.

(** A body that the chains of [validateTask] accept. *)
Definition valid (b : gmap string Js.value) : Prop :=
  (run validateTask b).1 = [].

(** The text, the nullable text and the flag that a handler binds for a
    body that passed. *)
Definition stored_text (v : Js.value) : string :=
  Js.escape (Js.trim (Js.toString v)).

Definition stored_description (v : Js.value) : option string :=
  match v with
  | Js.Undefined => None
  | _ => Some (stored_text v)
  end.

Definition flag (v : Js.value) : Z := if Js.truthy v then 1 else 0.

(** The row a POST of a body that passed stores at clock reading [now],
    and the row a PUT makes of the row [r]. *)
Definition created (now : Z) (b : gmap string Js.value) : task :=
  {| title := stored_text (get "title" b);
     description := stored_description (get "description" b);
     completed := flag (get "completed" b);
     created_at := now;
     updated_at := now |}.

Definition replaced (now : Z) (b : gmap string Js.value) (r : task) : task :=
  {| title := stored_text (get "title" b);
     description := stored_description (get "description" b);
     completed := flag (get "completed" b);
     created_at := created_at r;
     updated_at := now |}.

(** The filter that GET /tasks binds for a query. *)
Definition filter_of (q : gmap string string) : option Z :=
  (λ c, if String.eqb c "true" then 1 else 0) <$> (q !! "completed").

(** The handler of the route that takes a request, if there is one. *)
Definition route (m : method) (t : target) : option (request → action) :=
  match m, t with
  | GET, Root => Some root
  | POST, Tasks => Some post_tasks
  | GET, Tasks => Some get_tasks
  | GET, TaskId _ => Some get_task
  | PUT, TaskId _ => Some put_task
  | DELETE, TaskId _ => Some delete_task
  | _, _ => None
  end.

(** Whether a handler sends a statement to the database. *)
Definition calls_database (a : action) : bool :=
  match a with
  | Done _ => false
  | Query _ _ => true
  end.

(** The filter, limit and offset of the page a handler asks for. *)
Definition page_asked (a : action) : option (option Z * param * param) :=
  match a with
  | Query (SelectPage c l o) _ => Some (c, l, o)
  | _ => None
  end.

(** A request whose body, if it has one, was parsed. *)
Definition request_of (m : method) (t : target) (q : gmap string string)
    (b : gmap string Js.value) : request :=
  {| method_of := m; target_of := t; malformed := None;
     query := q; body_of := b |}.

(** What one request can do to the database at clock reading [now]:
    nothing, insert a row under the next key, replace the row of a key by
    one with the same [created_at], or delete the row of a key. *)
Inductive effect (now : Z) (db : database) : database → Prop :=
| effect_none : effect now db db
| effect_insert b :
    effect now db {| tasks := <[next_rowid db := created now b]> (tasks db);
                     seq := next_rowid db |}
| effect_update k r b :
    tasks db !! k = Some r →
    effect now db {| tasks := <[k := replaced now b r]> (tasks db);
                     seq := seq db |}
| effect_delete k :
    effect now db {| tasks := delete k (tasks db); seq := seq db |}.

(** Every key is positive and at most the counter, and no row is updated
    before it is created or after the clock reading [t]. *)
Definition well_formed (t : Z) (db : database) : Prop :=
  ∀ k r, tasks db !! k = Some r →
    0 < k ≤ seq db ∧ created_at r ≤ updated_at r ≤ t.

(** The states the server reaches from the new database, the clock never
    going back: [reachable f p t db] when [db] is reached with the clock
    at [t] or before. *)
Inductive reachable (to_integer : string → option Z) (production : bool)
  : Z → database → Prop :=
| reach_new t : reachable to_integer production t Sqlite.empty
| reach_serve t t' db fault req :
    reachable to_integer production t db →
    t ≤ t' →
    reachable to_integer production t'
      (serve to_integer production t' fault db req).1.

(** One request, at some clock reading, taking the database from one state
    to the next. *)
Definition step (to_integer : string → option Z) (production : bool)
    (db db' : database) : Prop :=
  ∃ now fault req, db' = (serve to_integer production now fault db req).1.

(** *** Sample requests and tables *)

Definition buy_milk : gmap string Js.value :=
  {[ "title" := Js.Str "Buy milk" ]}.

Definition blank_title : gmap string Js.value :=
  {[ "title" := Js.Str "   " ]}.

Definition ship_release : gmap string Js.value :=
  <["completed" := Js.Str "false"]>
    (<["description" := Js.Str " <b>v2</b> "]>
       {[ "title" := Js.Str "  Ship release " ]}).

(** The table after a POST of [buy_milk] at clock reading 100. *)
Definition one_task : database :=
  (serve integer_literal false 100 None Sqlite.empty
     (request_of POST Tasks ∅ buy_milk)).1.

(** Its one row. *)
Definition milk_row : task :=
  {| title := "Buy milk"; description := None; completed := 0;
     created_at := 100; updated_at := 100 |}.

(** The table after eleven POSTs, one a second. *)
Definition eleven_tasks : database :=
  foldl (λ db t, (serve integer_literal false t None db
                    (request_of POST Tasks ∅ buy_milk)).1)
    Sqlite.empty (seqZ 1 11).

(** A body without a title and with a [completed] that is no boolean. *)
Definition no_title : gmap string Js.value :=
  {[ "completed" := Js.Str "yes" ]}.

Definition fish_and_chips : gmap string Js.value :=
  {[ "title" := Js.Str "Fish & chips" ]}.

(** The body that gives back the title stored for [fish_and_chips]. *)
Definition fish_and_chips_again : gmap string Js.value :=
  {[ "title" := Js.Str "Fish &amp; chips" ]}.

(** The table after a POST of [fish_and_chips], and its row. *)
Definition chips_task : database :=
  (serve integer_literal false 100 None Sqlite.empty
     (request_of POST Tasks ∅ fish_and_chips)).1.

Definition chips_row : task := created 100 fish_and_chips.

(** The table after a POST of [ship_release], and its row. *)
Definition shipped_task : database :=
  (serve integer_literal false 100 None Sqlite.empty
     (request_of POST Tasks ∅ ship_release)).1.

Definition shipped_row : task := created 100 ship_release.

(** [one_task] after a DELETE of its task at 110, and then after a POST
    at 120. *)
Definition emptied : database :=
  (serve integer_literal false 110 None one_task
     (request_of DELETE (TaskId "1") ∅ ∅)).1.

Definition refilled : database :=
  (serve integer_literal false 120 None emptied
     (request_of POST Tasks ∅ ship_release)).1.

(** [one_task] after a PUT of [ship_release] on its task at 160. *)
Definition updated_task : database :=
  (serve integer_literal false 160 None one_task
     (request_of PUT (TaskId "1") ∅ ship_release)).1.

(** A POST whose body is cut short. *)
Definition cut_short : request :=
  {| method_of := POST; target_of := Tasks;
     malformed := Some (raise "Unexpected end of JSON input");
     query := ∅; body_of := ∅ |}.

(** *** Texts, flags and listings *)

Definition first_char (s : string) : option ascii :=
  match s with
  | EmptyString => None
  | String c _ => Some c
  end.

Fixpoint last_char (s : string) : option ascii :=
  match s with
  | EmptyString => None
  | String c EmptyString => Some c
  | String _ s' => last_char s'
  end.

(** A text that neither starts nor ends with whitespace, and in which the
    only one of the eight code units of [escape] is [&]. *)
Definition sanitized (s : string) : Prop :=
  (∀ c, first_char s = Some c → Js.is_space c = false)
  ∧ (∀ c, last_char s = Some c → Js.is_space c = false)
  ∧ (∀ x, x ∈ list_ascii_of_string s → Js.entity x = None ∨ x = "&"%char).









(** The values of [completed] that [isBoolean] lets through, and among
    them the ones that JavaScript takes as true. *)
Definition boolean_like : list Js.value :=
  [Js.Bool true; Js.Bool false; Js.Num 1; Js.Num 0;
   Js.Str "true"; Js.Str "false"; Js.Str "1"; Js.Str "0"].

Definition taken_as_true : list Js.value :=
  [Js.Bool true; Js.Num 1;
   Js.Str "true"; Js.Str "false"; Js.Str "1"; Js.Str "0"].

(** The rows that GET /tasks answers for a query, when it answers 200. *)
Definition listed (to_integer : string → option Z) (production : bool)
    (now : Z) (db : database) (q : gmap string string) : option (list row) :=
  let r := (serve to_integer production now None db
              (request_of GET Tasks q ∅)).2 in
  match status r, content r with
  | 200, Json (TaskList rows _) => Some rows
  | _, _ => None
  end.

(** The query [?completed=c&limit=l&offset=o]. *)
Definition page_query (c l o : string) : gmap string string :=
  <["completed" := c]> (<["limit" := l]> {[ "offset" := o ]}).

(** *** Statements that the code does not meet *)

(** After a PUT, [updated_at] is strictly after [created_at]. *)
Definition updated_strictly_after_created
    (to_integer : string → option Z) (production : bool) : Prop :=
  ∀ now now' db q q' b b' p k r,
    valid b →
    find to_integer db (PText p) = Some (k, r) →
    created_at r ≤ now →
    ∃ db' r',
      serve to_integer production now None db (request_of PUT (TaskId p) q b)
        = (db', {| status := 200;
                   content := Json (Message "Task updated" (Some p)) |})
      ∧ serve to_integer production now' None db'
          (request_of GET (TaskId p) q' b')
        = (db', {| status := 200; content := Json (Task (k, r')) |})
      ∧ created_at r' < updated_at r'.

(** GET /tasks without a [completed] parameter returns all the tasks. *)
Definition unfiltered_list_is_complete
    (to_integer : string → option Z) (production : bool) : Prop :=
  ∀ now db q b,
    q !! "completed" = None →
    ∃ rows,
      (serve to_integer production now None db (request_of GET Tasks q b)).2
        = {| status := 200; content := Json (TaskList rows (length rows)) |}
      ∧ ∀ k r, tasks db !! k = Some r → (k, r) ∈ rows.

(** GET /tasks with a limit or an offset that is negative or not a number
    is rejected before a statement is sent. *)
Definition page_bounds_rejected (to_integer : string → option Z) : Prop :=
  ∀ req s,
    (query req !! "limit" = Some s ∨ query req !! "offset" = Some s) →
    (to_integer s = None ∨ ∃ n, to_integer s = Some n ∧ n < 0) →
    calls_database (get_tasks req) = false.

(** ** validator.js *)

Section Strings.

Local Open Scope string_scope.










(** A text is trimmed to nothing exactly when it is blank. *)
Lemma trim_blank s : Js.trim s = EmptyString ↔ blank s = true.
Proof.
  unfold Js.trim. induction s as [|c s IH]; simpl; [done|].
  destruct (Js.is_space c) eqn:Hc; simpl; [done|].
  rewrite Hc. split; [|done]. by destruct (Js.rtrim s).
Qed.



(** A text without any of the eight code units is left as it is. *)
Lemma escape_plain s :
  (∀ x, x ∈ list_ascii_of_string s → Js.entity x = None) →
  Js.escape s = s.
Proof.
  induction s as [|c s IH]; simpl; [done|]. intros H.
  rewrite (H c) by (apply elem_of_cons; by left).
  rewrite IH; [done|]. intros x Hx. apply H. apply elem_of_cons. by right.
Qed.

End Strings.

(** ** More on the sanitizers *)

Section Sanitizers.

Lemma last_char_some c s : is_Some (last_char (String c s)).
Proof.
  revert c. induction s as [|c' s IH]; intros c; [by eexists|].
  change (last_char (String c (String c' s))) with (last_char (String c' s)).
  apply IH.
Qed.

Lemma last_char_cons c s :
  last_char (String c s)
  = match last_char s with Some x => Some x | None => Some c end.
Proof.
  destruct s as [|c' s]; [done|].
  change (last_char (String c (String c' s))) with (last_char (String c' s)).
  by destruct (last_char_some c' s) as [x ->].
Qed.



Lemma entity_last c e :
  Js.entity c = Some e →
  ∃ x, last_char e = Some x ∧ Js.is_space x = false
       ∧ first_char e = Some "&"%char.
Proof.
  unfold Js.entity.
  repeat (match goal with
          | |- context [match ?n with O => _ | S _ => _ end] =>
              destruct n; try discriminate
          end);
    intros [= <-]; eexists; (split; [reflexivity|by split]).
Qed.




Lemma escape_length s : (String.length s ≤ String.length (Js.escape s))%nat.
Proof.
  assert (Happ : ∀ a b, String.length (a +:+ b)
                        = (String.length a + String.length b)%nat).
  { intros a b. induction a as [|x a IHa]; [done|].
    change (String x a +:+ b) with (String x (a +:+ b)). cbn. by rewrite IHa. }
  induction s as [|c s IH]; [done|]. cbn [Js.escape].
  destruct (Js.entity c) as [e|] eqn:He; [|cbn; lia].
  rewrite Happ. destruct e; [|cbn; lia].
  by destruct (entity_last c _ He) as (x & Hx & _).
Qed.

(** [escape] leaves a text as it is exactly when the text has none of the
    eight code units. *)
Lemma escape_fixed s :
  Js.escape s = s ↔ ∀ x, x ∈ list_ascii_of_string s → Js.entity x = None.
Proof.
  split; [|apply escape_plain].
  induction s as [|c s IH]; [intros _ x Hx; by apply elem_of_nil in Hx|].
  cbn [Js.escape list_ascii_of_string].
  destruct (Js.entity c) as [e|] eqn:He.
  - intros Heq. exfalso.
    assert (Hlen : String.length (e +:+ Js.escape s) = S (String.length s))
      by (by rewrite Heq).
    pose proof (escape_length s) as Hs.
    destruct (entity_last c e He) as (x & _ & _ & Hf).
    destruct e as [|a [|a' e]]; [done| |].
    + cbn in Hf. injection Hf as ->.
      revert He. unfold Js.entity.
      repeat (match goal with
              | |- context [match ?n with O => _ | S _ => _ end] =>
                  destruct n; try discriminate
              end).
    + change (String a (String a' e) +:+ Js.escape s)
        with (String a (String a' (e +:+ Js.escape s))) in Hlen.
      cbn in Hlen.
      assert (String.length (Js.escape s) ≤ String.length (e +:+ Js.escape s))%nat.
      { clear. induction e as [|z e IHe]; [done|].
        change (String z e +:+ Js.escape s)
          with (String z (e +:+ Js.escape s)). cbn. lia. }
      lia.
  - intros [= Heq] x Hx. apply elem_of_cons in Hx as [->|Hx]; [done|].
    by apply IH.
Qed.

Lemma rtrim_fixed s :
  (∀ c, last_char s = Some c → Js.is_space c = false) → Js.rtrim s = s.
Proof.
  induction s as [|x s IH]; [done|]. rewrite last_char_cons. intros H.
  cbn [Js.rtrim]. destruct s as [|y s].
  - cbn. by rewrite (H x eq_refl).
  - rewrite IH.
    + done.
    + intros c Hc. apply H. by rewrite Hc.
Qed.

(** [trim] leaves a text as it is when the text neither starts nor ends
    with whitespace. *)
Lemma trim_fixed s :
  (∀ c, first_char s = Some c → Js.is_space c = false) →
  (∀ c, last_char s = Some c → Js.is_space c = false) →
  Js.trim s = s.
Proof.
  intros Hf Hl. unfold Js.trim.
  assert (Js.ltrim s = s) as ->.
  { destruct s as [|x s]; [done|]. cbn. by rewrite (Hf x eq_refl). }
  by apply rtrim_fixed.
Qed.












End Sanitizers.

(** ** The validation chains *)

Section Validation.

Implicit Types b : gmap string Js.value.

Lemma get_insert_eq k v b : get k (<[k := v]> b) = v.
Proof. unfold get. by rewrite lookup_insert_eq. Qed.

Lemma get_insert_ne k k' v b : k ≠ k' → get k' (<[k := v]> b) = get k' b.
Proof. intros. unfold get. by rewrite lookup_insert_ne. Qed.

Lemma get_empty k : get k ∅ = Js.Undefined.
Proof. unfold get. by rewrite lookup_empty. Qed.

Implicit Types st : list field_error * gmap string Js.value.

Lemma chain_title st :
  let r := run_chain st
             (body "title" false [notEmpty "Title is required"; trim; escape]) in
  r.1 = st.1 ++ title_errors (get "title" st.2) ∧
  get "title" r.2 = clean (get "title" st.2) ∧
  ∀ k, k ≠ "title" → get k r.2 = get k st.2.
Proof.
  destruct st as [errs b]. unfold run_chain, title_errors.
  cbn [optional field items foldl fst snd].
  unfold run_item, notEmpty, trim, escape. cbn [fst snd].
  destruct (Js.isEmpty (Js.toString (get "title" b))); cbn [xorb fst snd];
    rewrite !get_insert_eq, ?app_nil_r; cbn [Js.toString];
    (split; [done|split; [done|]]);
    intros k Hk; by rewrite !get_insert_ne.
Qed.

Lemma chain_description st :
  let r := run_chain st (body "description" true [trim; escape]) in
  r.1 = st.1 ∧
  get "description" r.2 = clean_optional (get "description" st.2) ∧
  ∀ k, k ≠ "description" → get k r.2 = get k st.2.
Proof.
  destruct st as [errs b]. unfold run_chain.
  cbn [optional field items foldl fst snd].
  destruct (get "description" b) eqn:Hd; cbn [fst snd];
    [by rewrite Hd|..];
    unfold run_item, trim, escape; cbn [fst snd];
    rewrite !get_insert_eq, ?Hd; cbn [Js.toString];
    (split; [done|split; [done|]]);
    intros k Hk; by rewrite !get_insert_ne.
Qed.

Lemma chain_completed st :
  let r := run_chain st
             (body "completed" true [isBoolean "Completed must be a boolean"]) in
  r.1 = st.1 ++ completed_errors (get "completed" st.2) ∧ r.2 = st.2.
Proof.
  destruct st as [errs b]. unfold run_chain, completed_errors.
  cbn [optional field items foldl fst snd].
  destruct (get "completed" b) eqn:Hc; cbn [fst snd];
    [by rewrite app_nil_r|..];
    unfold run_item, isBoolean; cbn [fst snd xorb]; rewrite Hc;
    match goal with
    | |- context [Js.isBoolean ?x] => destruct (Js.isBoolean x)
    end; cbn [fst snd]; by rewrite ?app_nil_r.
Qed.

(** What the three chains do to a body: at most one error for [title],
    at most one for [completed]; [title] and a [description] that is
    there are replaced by their trimmed and escaped text; [completed] is
    left as it came. *)
Lemma run_validateTask b :
  let r := run validateTask b in
  r.1 = title_errors (get "title" b) ++
        completed_errors (get "completed" b) ∧
  get "title" r.2 = clean (get "title" b) ∧
  get "description" r.2 = clean_optional (get "description" b) ∧
  get "completed" r.2 = get "completed" b.
Proof.
  unfold run, validateTask. cbn [foldl].
  pose proof (chain_title ([], b)) as (E1 & T1 & O1).
  set (s1 := run_chain ([], b) _) in *.
  pose proof (chain_description s1) as (E2 & D2 & O2).
  set (s2 := run_chain s1 _) in *.
  pose proof (chain_completed s2) as (E3 & B3).
  set (s3 := run_chain s2 _) in *.
  cbn [fst snd] in *. rewrite B3, E3, E2, E1, D2.
  rewrite !O2, !O1, T1 by done. by rewrite O1.
Qed.

(** The bodies that pass: a [title] whose text is not empty, and a
    [completed] that is absent or reads as one of the four boolean
    texts. *)
Lemma valid_iff b :
  valid b ↔
  Js.toString (get "title" b) ≠ EmptyString ∧
  (get "completed" b = Js.Undefined ∨
   Js.isBoolean (Js.toString (get "completed" b)) = true).
Proof.
  unfold valid. destruct (run_validateTask b) as [-> _].
  unfold title_errors, completed_errors, Js.isEmpty.
  destruct (String.eqb_spec (Js.toString (get "title" b)) EmptyString)
    as [He|He].
  - split; [done|]. by intros [? _].
  - rewrite app_nil_l. destruct (get "completed" b) eqn:Hc.
    1: by intuition.
    all: match goal with
         | |- context [Js.isBoolean ?x] => destruct (Js.isBoolean x)
         end; intuition congruence.
Qed.

End Validation.

(** ** The table *)

Section Table.

Implicit Types t : gmap Z task.

Lemma max_rowid_bounds t :
  0 ≤ max_rowid t ∧ ∀ k r, t !! k = Some r → k ≤ max_rowid t.
Proof.
  unfold max_rowid.
  apply (map_fold_weak_ind
           (λ acc t, 0 ≤ acc ∧ ∀ k r, t !! k = Some r → k ≤ acc)).
  - split; [done|]. intros k r. by rewrite lookup_empty.
  - intros i x m acc Hi [H0 IH]. split; [lia|].
    intros k r. rewrite lookup_insert. case_decide as Hk.
    + intros _. subst. lia.
    + intros Hm. specialize (IH k r Hm). lia.
Qed.

Lemma next_rowid_positive db : 0 < next_rowid db.
Proof.
  unfold next_rowid. pose proof (max_rowid_bounds (tasks db)) as [? _]. lia.
Qed.

Lemma next_rowid_above db k r :
  tasks db !! k = Some r → k < next_rowid db.
Proof.
  unfold next_rowid. intros H.
  pose proof (max_rowid_bounds (tasks db)) as [_ Hm].
  specialize (Hm k r H). lia.
Qed.

(** The key AUTOINCREMENT hands out is not in the table. *)
Lemma next_rowid_fresh db : tasks db !! next_rowid db = None.
Proof.
  destruct (tasks db !! next_rowid db) as [r|] eqn:H; [|done].
  apply next_rowid_above in H. lia.
Qed.

Lemma next_rowid_seq db : seq db < next_rowid db.
Proof. unfold next_rowid. lia. Qed.

End Table.

(** ** The handlers, one request at a time *)

(** Unfold the stack down to the route that takes the request. *)
Ltac to_route :=
  unfold serve, app, request_of;
  cbn [dispatch malformed method_of target_of matches
       bool_decide decide_rel andb].

Section Serve.

Variable to_integer : string → option Z.
Variable production : bool.

Implicit Types (db : database) (b : gmap string Js.value)
  (q : gmap string string) (p : string).

Lemma bind_clean v : as_text (bind (clean v)) = Some (stored_text v).
Proof. reflexivity. Qed.

Lemma bind_clean_optional v :
  as_text (bind (clean_optional v)) = stored_description v.
Proof. by destruct v. Qed.

(** A body that does not pass is answered 400 with the list of errors,
    from the handler itself. *)
Lemma rejected_body (h : request → action) req :
  (h = post_tasks ∨ h = put_task) →
  ¬ valid (body_of req) →
  h req = Done (Send {| status := 400;
                        content := Json (Errors (run validateTask (body_of req)).1) |}).
Proof.
  unfold valid. intros Hh Hv.
  destruct Hh as [-> | ->]; unfold post_tasks, put_task;
    destruct (run validateTask (body_of req)) as [[|e errs] b'];
    by cbn in *.
Qed.

Lemma post_valid now db q b :
  valid b →
  serve to_integer production now None db (request_of POST Tasks q b) =
    ({| tasks := <[next_rowid db := created now b]> (tasks db);
        seq := next_rowid db |},
     {| status := 201;
        content := Json (Created (next_rowid db) (clean (get "title" b))
                           (clean_optional (get "description" b))
                           (Js.truthy (get "completed" b))) |}).
Proof.
  unfold valid. intros Hv.
  pose proof (run_validateTask b) as (_ & Ht & Hd & Hc).
  to_route. unfold post_tasks. cbn [body_of].
  destruct (run validateTask b) as [errs b']. cbn [fst snd] in *. subst errs.
  rewrite Ht, Hd, Hc. cbn [perform exec].
  by rewrite bind_clean, bind_clean_optional.
Qed.

Lemma post_invalid now fault db q b :
  ¬ valid b →
  serve to_integer production now fault db (request_of POST Tasks q b) =
    (db, {| status := 400;
            content := Json (Errors (run validateTask b).1) |}).
Proof.
  intros Hv. to_route.
  rewrite (rejected_body post_tasks) by (cbn; auto). by cbn.
Qed.

Lemma put_valid now db q b p :
  valid b →
  serve to_integer production now None db (request_of PUT (TaskId p) q b) =
    match find to_integer db (PText p) with
    | Some (k, r) =>
        ({| tasks := <[k := replaced now b r]> (tasks db); seq := seq db |},
         {| status := 200;
            content := Json (Message "Task updated" (Some p)) |})
    | None =>
        (db, {| status := 404;
                content := Json (Message "Task not found" None) |})
    end.
Proof.
  unfold valid. intros Hv.
  pose proof (run_validateTask b) as (_ & Ht & Hd & Hc).
  to_route. unfold put_task. cbn [body_of].
  destruct (run validateTask b) as [errs b']. cbn [fst snd] in *. subst errs.
  rewrite Ht, Hd, Hc. cbn [perform exec id_param target_of].
  destruct (find to_integer db (PText p)) as [[k r]|]; [|done].
  by rewrite bind_clean, bind_clean_optional.
Qed.

Lemma put_invalid now fault db q b p :
  ¬ valid b →
  serve to_integer production now fault db (request_of PUT (TaskId p) q b) =
    (db, {| status := 400;
            content := Json (Errors (run validateTask b).1) |}).
Proof.
  intros Hv. to_route.
  rewrite (rejected_body put_task) by (cbn; auto). by cbn.
Qed.

Lemma delete_served now db q b p :
  serve to_integer production now None db (request_of DELETE (TaskId p) q b) =
    match find to_integer db (PText p) with
    | Some (k, _) =>
        ({| tasks := delete k (tasks db); seq := seq db |},
         {| status := 200;
            content := Json (Message "Task deleted" (Some p)) |})
    | None =>
        (db, {| status := 404;
                content := Json (Message "Task not found" None) |})
    end.
Proof.
  to_route.
  unfold delete_task. cbn [perform exec id_param target_of].
  by destruct (find to_integer db (PText p)) as [[k r]|].
Qed.

Lemma get_task_served now db q b p :
  serve to_integer production now None db (request_of GET (TaskId p) q b) =
    match find to_integer db (PText p) with
    | Some r => (db, {| status := 200; content := Json (Task r) |})
    | None =>
        (db, {| status := 404;
                content := Json (Message "Task not found" None) |})
    end.
Proof.
  to_route.
  unfold get_task. cbn [perform exec id_param target_of].
  by destruct (find to_integer db (PText p)).
Qed.

Lemma get_tasks_served now db q b :
  serve to_integer production now None db (request_of GET Tasks q b) =
    match as_integer to_integer (from_option PText (PInt 10) (q !! "limit")),
          as_integer to_integer (from_option PText (PInt 0) (q !! "offset"))
    with
    | Some l, Some o =>
        let rows := select_page db (filter_of q) l o in
        (db, {| status := 200;
                content := Json (TaskList rows (length rows)) |})
    | _, _ => (db, finalhandler production datatype_mismatch)
    end.
Proof.
  to_route.
  unfold get_tasks. cbn [perform exec query].
  destruct (as_integer _ _) as [l|]; [|done].
  by destruct (as_integer _ _) as [o|].
Qed.

End Serve.

(** ** Create, read, update, delete *)

Section Crud.

Variable to_integer : string → option Z.
Variable production : bool.

Implicit Types (db : database) (b : gmap string Js.value)
  (q : gmap string string) (p : string).

Local Abbreviation gone :=
  {| status := 404; content := Json (Message "Task not found" None) |}.

(** C1. A POST of a body that passes validation is answered 201 with the
    created task, whose id is a positive integer; a GET of that id on
    the resulting table is answered 200 with a row that has the title,
    the description (NULL when there was none) and the completed flag of
    the created task, and equal [created_at] and [updated_at].  The id
    in the path is the decimal text of the id, which SQLite reads back
    as that integer. *)
Theorem post_then_get_by_id now now' db q q' b b' :
  valid b →
  to_integer (Js.decimal (next_rowid db)) = Some (next_rowid db) →
  ∃ db' id title description completed r,
    serve to_integer production now None db (request_of POST Tasks q b)
      = (db', {| status := 201;
                 content := Json (Created id title description completed) |})
    ∧ 0 < id
    ∧ title = clean (get "title" b)
    ∧ description = clean_optional (get "description" b)
    ∧ completed = Js.truthy (get "completed" b)
    ∧ serve to_integer production now' None db'
        (request_of GET (TaskId (Js.decimal id)) q' b')
      = (db', {| status := 200; content := Json (Task (id, r)) |})
    ∧ title = Js.Str (Sqlite.title r)
    ∧ as_text (bind description) = Sqlite.description r
    ∧ Sqlite.completed r = (if completed then 1 else 0)
    ∧ created_at r = updated_at r.
Proof.
  intros Hv Hid. eexists _, _, _, _, _, (created now b).
  split; [by apply post_valid|].
  split; [apply next_rowid_positive|].
  do 3 (split; [reflexivity|]).
  split.
  - rewrite get_task_served. unfold find. cbn [as_integer tasks].
    rewrite Hid. cbn. by rewrite lookup_insert_eq.
  - cbn [created Sqlite.title Sqlite.description Sqlite.completed
           created_at updated_at].
    by rewrite bind_clean_optional.
Qed.

(** C4, as amended.  A PUT of a body that passes validation on an id
    that is in the table is answered 200; a GET of the id then shows the
    new title, description and completed flag, [updated_at] at the clock
    reading of the update, and the id and [created_at] it had; so
    [updated_at] is after [created_at] when the update comes at a later
    second than the creation.  The other rows are left as they were. *)
Theorem put_then_get_by_id now now' db q q' b b' p k r :
  valid b →
  find to_integer db (PText p) = Some (k, r) →
  ∃ db' r',
    serve to_integer production now None db (request_of PUT (TaskId p) q b)
      = (db', {| status := 200;
                 content := Json (Message "Task updated" (Some p)) |})
    ∧ serve to_integer production now' None db'
        (request_of GET (TaskId p) q' b')
      = (db', {| status := 200; content := Json (Task (k, r')) |})
    ∧ title r' = stored_text (get "title" b)
    ∧ description r' = stored_description (get "description" b)
    ∧ completed r' = flag (get "completed" b)
    ∧ updated_at r' = now
    ∧ created_at r' = created_at r
    ∧ (created_at r < now → created_at r' < updated_at r')
    ∧ (∀ k', k' ≠ k → tasks db' !! k' = tasks db !! k')
    ∧ seq db' = seq db.
Proof.
  intros Hv Hf. eexists _, (replaced now b r).
  split; [by rewrite put_valid, Hf|].
  split.
  - rewrite get_task_served. unfold find in *. cbn [as_integer tasks] in *.
    destruct (to_integer p) as [k0|]; [|done]. cbn in *.
    destruct (tasks db !! k0) as [r0|] eqn:Hk; [|done]. cbn in Hf.
    injection Hf as -> ->. by rewrite lookup_insert_eq.
  - cbn. repeat split; try done.
    intros k' Hk. by rewrite lookup_insert_ne.
Qed.

Lemma find_absent_after_delete db p k r :
  find to_integer db (PText p) = Some (k, r) →
  find to_integer {| tasks := delete k (tasks db); seq := seq db |} (PText p)
    = None.
Proof.
  unfold find. cbn [as_integer tasks].
  destruct (to_integer p) as [k0|]; [|done]. cbn.
  destruct (tasks db !! k0) as [r0|] eqn:Hk; [|done]. cbn.
  intros [= -> ->]. by rewrite lookup_delete_eq.
Qed.

(** C5. On an id that is not in the table, a PUT of a body that passes
    validation and a DELETE are each answered 404 and leave the table as
    it was, and a GET is answered 404.  After a DELETE that removed an id,
    a second and a third DELETE of it are answered 404, without error and
    without effect, and so is a GET of it.  The DELETE and GET requests
    carry any query and any body, none included; only the body of the PUT
    is one that passes validation. *)
Theorem absent_id_not_found now0 now1 now2 now3 now4 db p
    q b q0 b0 q1 b1 q2 b2 q3 b3 q4 b4 :
  (find to_integer db (PText p) = None →
   (valid b →
    serve to_integer production now0 None db (request_of PUT (TaskId p) q b)
      = (db, gone))
   ∧ serve to_integer production now0 None db
       (request_of DELETE (TaskId p) q0 b0)
     = (db, gone)
   ∧ serve to_integer production now0 None db
       (request_of GET (TaskId p) q0 b0)
     = (db, gone))
  ∧ (∀ k r,
       find to_integer db (PText p) = Some (k, r) →
       ∃ db',
         serve to_integer production now1 None db
           (request_of DELETE (TaskId p) q1 b1)
           = (db', {| status := 200;
                      content := Json (Message "Task deleted" (Some p)) |})
         ∧ tasks db' !! k = None
         ∧ serve to_integer production now2 None db'
             (request_of DELETE (TaskId p) q2 b2) = (db', gone)
         ∧ serve to_integer production now3 None db'
             (request_of DELETE (TaskId p) q3 b3) = (db', gone)
         ∧ serve to_integer production now4 None db'
             (request_of GET (TaskId p) q4 b4) = (db', gone)
         ∧ (valid b →
            serve to_integer production now4 None db'
              (request_of PUT (TaskId p) q b) = (db', gone))).
Proof.
  split.
  - intros H0. split; [intros Hv; by rewrite put_valid, H0|].
    by rewrite delete_served, get_task_served, H0.
  - intros k r Hp.
    pose proof (find_absent_after_delete db p k r Hp) as Hgone.
    eexists. split; [by rewrite delete_served, Hp|].
    split; [apply lookup_delete_eq|].
    rewrite !delete_served, get_task_served, Hgone.
    do 3 (split; [done|]). intros Hv. by rewrite put_valid, Hgone.
Qed.

End Crud.

(** ** Listing *)

Section Listing.

Variable to_integer : string → option Z.
Variable production : bool.

Implicit Types (db : database) (q : gmap string string) (rows : list row).

#[local] Instance newer_first_total : Total newer_first.
Proof. intros a b. unfold newer_first. lia. Qed.

#[local] Instance newer_first_trans : Transitive newer_first.
Proof. intros a b c. unfold newer_first. lia. Qed.

Lemma filter_everything {A} (P : A → Prop) `{∀ x, Decision (P x)} (xs : list A) :
  (∀ x, P x) → filter P xs = xs.
Proof.
  intros HP. induction xs as [|x xs IH]; [done|].
  rewrite filter_cons_True by done. by rewrite IH.
Qed.

Lemma page_sorted l o rows :
  StronglySorted newer_first rows → StronglySorted newer_first (page l o rows).
Proof.
  intros Hs. unfold page.
  assert (Hd : StronglySorted newer_first (drop (Z.to_nat o) rows)).
  { rewrite <- (take_drop (Z.to_nat o) rows) in Hs.
    by apply StronglySorted_app_1_r in Hs. }
  destruct (l <? 0); [done|].
  rewrite <- (take_drop (Z.to_nat l) (drop (Z.to_nat o) rows)) in Hd.
  by apply StronglySorted_app_1_l in Hd.
Qed.

Lemma page_subseteq l o rows : page l o rows ⊆ rows.
Proof.
  unfold page. destruct (l <? 0).
  - apply subseteq_drop.
  - etrans; [apply subseteq_take|apply subseteq_drop].
Qed.

(** A negative limit and an offset of zero or less give every row. *)
Lemma page_everything l o rows : l < 0 → o ≤ 0 → page l o rows = rows.
Proof.
  intros Hl Ho. unfold page. apply Z.ltb_lt in Hl. rewrite Hl.
  replace (Z.to_nat o) with 0%nat by lia. apply drop_0.
Qed.

Lemma page_length l o rows :
  0 ≤ l → (length (page l o rows) ≤ Z.to_nat l)%nat.
Proof.
  intros Hl. unfold page. apply Z.ltb_ge in Hl. rewrite Hl.
  rewrite length_take. lia.
Qed.

(** C6, as amended.  GET /tasks with a limit and an offset that are absent
    or read as integers is answered 200 with a page of tasks and its
    length.  The page is cut by LIMIT and OFFSET (10 and 0 when absent)
    out of a sequence that is ordered newest first by [created_at] and
    that holds the tasks whose flag is 1 when [completed] is the text
    [true] and 0 when it is any other text, and all the tasks when
    [completed] is absent.  So the page is ordered newest first, holds
    only tasks of the table, and only tasks with the flag asked for. *)
Theorem get_tasks_page now db q b l o :
  as_integer to_integer (from_option PText (PInt 10) (q !! "limit")) = Some l →
  as_integer to_integer (from_option PText (PInt 0) (q !! "offset")) = Some o →
  ∃ full rows,
    serve to_integer production now None db (request_of GET Tasks q b)
      = (db, {| status := 200;
                content := Json (TaskList rows (length rows)) |})
    ∧ rows = page l o full
    ∧ StronglySorted newer_first full
    ∧ (∀ s, q !! "completed" = Some s →
         full ≡ₚ filter (λ r, completed r.2
                                = if String.eqb s "true" then 1 else 0)
                   (map_to_list (tasks db)))
    ∧ (q !! "completed" = None → full ≡ₚ map_to_list (tasks db))
    ∧ StronglySorted newer_first rows
    ∧ (∀ r, r ∈ rows → tasks db !! r.1 = Some r.2)
    ∧ (∀ s r, q !! "completed" = Some s → r ∈ rows →
         completed r.2 = if String.eqb s "true" then 1 else 0).
Proof.
  intros Hl Ho.
  set (kept := filter (λ r, where_completed (filter_of q) r = true)
                 (map_to_list (tasks db))).
  exists (merge_sort newer_first kept), (select_page db (filter_of q) l o).
  assert (Hsorted : StronglySorted newer_first (merge_sort newer_first kept))
    by (apply StronglySorted_merge_sort; apply _).
  assert (Hperm : merge_sort newer_first kept ≡ₚ kept)
    by apply merge_sort_Permutation.
  assert (Hin : ∀ r, r ∈ select_page db (filter_of q) l o → r ∈ kept).
  { intros r Hr. unfold select_page in Hr. apply page_subseteq in Hr.
    fold kept in Hr. by rewrite Hperm in Hr. }
  split; [by rewrite get_tasks_served, Hl, Ho|].
  split; [done|]. split; [done|].
  split.
  { intros s Hs. rewrite Hperm. subst kept. unfold filter_of. rewrite Hs.
    cbn [fmap option_fmap option_map where_completed].
    erewrite list_filter_iff; [reflexivity|]. intros r. apply Z.eqb_eq. }
  split.
  { intros Hn. rewrite Hperm. subst kept. unfold filter_of. rewrite Hn.
    cbn [fmap option_fmap option_map where_completed].
    by rewrite filter_everything. }
  split; [by apply page_sorted|].
  split.
  { intros [k r] Hr. apply Hin in Hr. subst kept.
    apply list_elem_of_filter in Hr as [_ Hr].
    by apply elem_of_map_to_list in Hr. }
  intros s r Hs Hr. apply Hin in Hr. subst kept.
  apply list_elem_of_filter in Hr as [Hr _].
  unfold filter_of in Hr. rewrite Hs in Hr. by apply Z.eqb_eq in Hr.
Qed.

(** C7, as amended.  GET /tasks checks neither the limit nor the offset:
    it always sends the statement, with the texts the client gave and with
    10 and 0 for the ones that are absent.  With both absent the answer is
    the page of the first ten rows.  A text that reads as a negative
    integer is taken: as a limit it gives every row from the offset on.  A
    text that does not read as an integer makes the statement fail, and
    the failure is answered 500 by the final handler. *)
Theorem page_passed_through now db q b :
  let req := request_of GET Tasks q b in
  page_asked (get_tasks req)
    = Some (filter_of q,
            from_option PText (PInt 10) (q !! "limit"),
            from_option PText (PInt 0) (q !! "offset"))
  ∧ (q !! "limit" = None → q !! "offset" = None →
       serve to_integer production now None db req
         = (db, {| status := 200;
                   content :=
                     Json (TaskList (select_page db (filter_of q) 10 0)
                             (length (select_page db (filter_of q) 10 0))) |}))
  ∧ (∀ s n, q !! "limit" = Some s → q !! "offset" = None →
       to_integer s = Some n → n < 0 →
       ∃ rows,
         serve to_integer production now None db req
           = (db, {| status := 200;
                     content := Json (TaskList rows (length rows)) |})
         ∧ rows ≡ₚ filter (λ r, where_completed (filter_of q) r = true)
                     (map_to_list (tasks db)))
  ∧ (∀ s, (q !! "limit" = Some s ∨ q !! "offset" = Some s) →
       to_integer s = None →
       serve to_integer production now None db req
         = (db, finalhandler production datatype_mismatch)).
Proof.
  intros req. subst req. split; [done|]. split; [|split].
  - intros Hl Ho. by rewrite get_tasks_served, Hl, Ho.
  - intros s n Hl Ho Hs Hn. eexists. rewrite get_tasks_served, Hl, Ho.
    cbn [from_option as_integer]. rewrite Hs. split; [done|].
    unfold select_page. rewrite page_everything by lia.
    apply merge_sort_Permutation.
  - intros s [Hq|Hq] Hs; rewrite get_tasks_served, Hq;
      cbn [from_option as_integer]; rewrite Hs; [done|].
    by destruct (as_integer _ _).
Qed.

End Listing.

(** ** Faults and reachable states *)

Section Reach.

Variable to_integer : string → option Z.
Variable production : bool.

Implicit Types (db : database) (b : gmap string Js.value)
  (q : gmap string string) (p : string).

Lemma valid_or_not b : valid b ∨ ¬ valid b.
Proof. unfold valid. destruct (run validateTask b).1; [by left|by right]. Qed.

Lemma find_Some db id k r :
  find to_integer db id = Some (k, r) → tasks db !! k = Some r.
Proof.
  unfold find. destruct (as_integer to_integer id) as [k0|]; [|done]. cbn.
  destruct (tasks db !! k0) as [r0|] eqn:Hk; [|done]. cbn.
  by intros [= <- <-].
Qed.

(** A statement that the driver fails leaves the table as it was. *)
Lemma fault_keeps_table now err db req :
  (serve to_integer production now (Some err) db req).1 = db.
Proof.
  destruct req as [m t [bad|] q b]; [reflexivity|].
  destruct m, t; try reflexivity; to_route;
    unfold post_tasks, put_task; cbn [body_of];
    by destruct (run validateTask b) as [[|e errs] b'].
Qed.

(** When the driver fails the statement of a request, the answer is that
    of Express's final handler, on each of the five routes that send a
    statement. *)
Lemma fault_reaches_finalhandler now err db q b p :
  serve to_integer production now (Some err) db (request_of GET Tasks q b)
    = (db, finalhandler production err)
  ∧ serve to_integer production now (Some err) db
      (request_of GET (TaskId p) q b)
    = (db, finalhandler production err)
  ∧ serve to_integer production now (Some err) db
      (request_of DELETE (TaskId p) q b)
    = (db, finalhandler production err)
  ∧ (valid b →
     serve to_integer production now (Some err) db (request_of POST Tasks q b)
       = (db, finalhandler production err)
     ∧ serve to_integer production now (Some err) db
         (request_of PUT (TaskId p) q b)
       = (db, finalhandler production err)).
Proof.
  do 3 (split; [reflexivity|]). unfold valid. intros Hv.
  to_route.
  unfold post_tasks, put_task. cbn [body_of].
  destruct (run validateTask b) as [errs b']. cbn in Hv. by subst errs.
Qed.

(** A body that cannot be parsed is the one thing [errorHandler] answers:
    the body parser is the only layer registered before it. *)
Lemma malformed_body_answer now fault db req err :
  malformed req = Some err →
  serve to_integer production now fault db req = (db, errorHandler err).
Proof. destruct req as [m t bad q b]. cbn. by intros ->. Qed.

(** The final handler is where every [next(err)] of a route ends: the one
    error middleware is registered before the routes, and the router only
    looks at the layers after the route. *)
Lemma serve_route now fault db req :
  malformed req = None →
  serve to_integer production now fault db req =
    match route (method_of req) (target_of req) with
    | Some handle =>
        let (db', o) := perform to_integer now fault db (handle req) in
        match o with
        | Send r => (db', r)
        | Next err => (db', finalhandler production err)
        end
    | None => (db, cannot req)
    end.
Proof.
  destruct req as [m t bad q b]. cbn. intros ->. destruct m, t; reflexivity.
Qed.

Lemma handler_status now fault db req handle :
  route (method_of req) (target_of req) = Some handle →
  match (perform to_integer now fault db (handle req)).2 with
  | Send r => status r ≠ 500
  | Next _ => True
  end.
Proof.
  destruct req as [m t bad q b]. destruct m, t; intros [= <-];
    unfold root, post_tasks, put_task, get_tasks, get_task, delete_task;
    cbn [body_of]; try destruct (run validateTask b) as [[|e errs] b'];
    try done; destruct fault as [err'|]; cbn [perform snd]; try done.
  all: match goal with
       | |- context [exec ?f ?n ?d ?s] =>
           destruct (exec f n d s) as [db' [e'|v]]
       end; cbn [snd]; try exact I.
  all: try destruct v; cbn; discriminate.
Qed.

(** No answer to a request that reached a route comes from
    [errorHandler]. *)
Lemma errorHandler_never_answers now fault db req err :
  malformed req = None →
  (serve to_integer production now fault db req).2 ≠ errorHandler err.
Proof.
  intros Hp. rewrite serve_route by done.
  destruct (route (method_of req) (target_of req)) as [handle|] eqn:Hr;
    [|done].
  pose proof (handler_status now fault db req handle Hr) as Hs.
  destruct (perform to_integer now fault db (handle req)) as [db' [r|err']];
    cbn [snd] in *; [|done].
  intros ->. by apply Hs.
Qed.

(** One request changes the table in one of four ways. *)
Lemma serve_effect now fault db req :
  effect now db (serve to_integer production now fault db req).1.
Proof.
  destruct fault as [err|]; [rewrite fault_keeps_table; constructor|].
  destruct req as [m t [bad|] q b]; [cbn; constructor|].
  destruct m, t; try (cbn; constructor).
  - change (effect now db (serve to_integer production now None db
                             (request_of GET Tasks q b)).1).
    rewrite get_tasks_served.
    destruct (as_integer _ _); [destruct (as_integer _ _)|]; constructor.
  - change (effect now db (serve to_integer production now None db
                             (request_of GET (TaskId id) q b)).1).
    rewrite get_task_served. destruct (find _ _ _); constructor.
  - change (effect now db (serve to_integer production now None db
                             (request_of POST Tasks q b)).1).
    destruct (valid_or_not b) as [Hv|Hv].
    + rewrite post_valid by done. constructor.
    + rewrite post_invalid by done. constructor.
  - change (effect now db (serve to_integer production now None db
                             (request_of PUT (TaskId id) q b)).1).
    destruct (valid_or_not b) as [Hv|Hv].
    + rewrite put_valid by done.
      destruct (find _ _ _) as [[k r]|] eqn:Hf; [|constructor].
      apply effect_update. by apply find_Some in Hf.
    + rewrite put_invalid by done. constructor.
  - change (effect now db (serve to_integer production now None db
                             (request_of DELETE (TaskId id) q b)).1).
    rewrite delete_served. destruct (find _ _ _) as [[k r]|]; constructor.
Qed.

(** The invariant of the reachable states. *)
Lemma effect_well_formed t t' db db' :
  well_formed t db → t ≤ t' → effect t' db db' → well_formed t' db'.
Proof.
  intros Hw Ht He k r. destruct He as [|b|k0 r0 b Hk0|k0]; cbn [tasks seq].
  - intros H. specialize (Hw k r H). lia.
  - pose proof (next_rowid_positive db). pose proof (next_rowid_seq db).
    rewrite lookup_insert. case_decide as Hk.
    + intros [= <-]. subst k. cbn. lia.
    + intros H'. specialize (Hw k r H'). lia.
  - rewrite lookup_insert. case_decide as Hk.
    + intros [= <-]. subst k. specialize (Hw k0 r0 Hk0). cbn. lia.
    + intros H'. specialize (Hw k r H'). lia.
  - rewrite lookup_delete. case_decide; [done|].
    intros H'. specialize (Hw k r H'). lia.
Qed.

Lemma reachable_well_formed t db :
  reachable to_integer production t db → well_formed t db.
Proof.
  induction 1 as [t|t t' db fault req Hr IH Ht].
  - intros k r. unfold Sqlite.empty. cbn [tasks]. by rewrite lookup_empty.
  - eapply effect_well_formed; [exact IH|exact Ht|apply serve_effect].
Qed.

(** In a reachable state every row has [updated_at] at or after
    [created_at], and a positive key. *)
Lemma reachable_rows t db k r :
  reachable to_integer production t db →
  tasks db !! k = Some r →
  0 < k ∧ created_at r ≤ updated_at r.
Proof.
  intros Hr Hk. destruct (reachable_well_formed t db Hr k r Hk). lia.
Qed.

(** An id is not used again: a key at or below the counter that has no
    row gets none, whatever the next request is; and the counter does not
    go down. *)
Lemma id_not_reused t' db fault req k :
  k ≤ seq db →
  tasks db !! k = None →
  let db' := (serve to_integer production t' fault db req).1 in
  tasks db' !! k = None ∧ seq db ≤ seq db'.
Proof.
  intros Hk Hn db'. subst db'.
  destruct (serve_effect t' fault db req) as [|b|k0 r0 b Hk0|k0];
    cbn [tasks seq].
  - done.
  - pose proof (next_rowid_seq db).
    split; [|lia]. rewrite lookup_insert_ne; [done|lia].
  - split; [|done]. rewrite lookup_insert_ne; [done|congruence].
  - split; [|done]. rewrite lookup_delete. by case_decide.
Qed.

(** ... and whatever the requests that follow are. *)
Lemma id_never_reused db db' k :
  rtc (step to_integer production) db db' →
  k ≤ seq db →
  tasks db !! k = None →
  tasks db' !! k = None ∧ seq db ≤ seq db'.
Proof.
  induction 1 as [db|db db1 db2 (t' & fault & req & ->) _ IH]; [done|].
  intros Hk Hn.
  destruct (id_not_reused t' db fault req k Hk Hn) as [Hn1 Hs1].
  destruct IH as [Hn2 Hs2]; [lia|done|]. split; [done|lia].
Qed.

(** An id is not changed: the row that a key has after a request was
    created when the row it had before was. *)
Lemma id_not_mutated t' db fault req k r r' :
  tasks db !! k = Some r →
  (serve to_integer production t' fault db req).1.(tasks) !! k = Some r' →
  created_at r' = created_at r.
Proof.
  intros Hk.
  destruct (serve_effect t' fault db req) as [|b|k0 r0 b Hk0|k0];
    cbn [tasks seq].
  - congruence.
  - rewrite lookup_insert_ne; [congruence|].
    apply next_rowid_above in Hk. lia.
  - rewrite lookup_insert. case_decide; [|congruence].
    intros [= <-]. cbn. congruence.
  - rewrite lookup_delete. case_decide; [done|congruence].
Qed.

End Reach.

(** ** What is stored *)

Section Stored.

Variable to_integer : string → option Z.
Variable production : bool.

Implicit Types (db : database) (b : gmap string Js.value)
  (q : gmap string string) (p : string).


(** C10. A body whose [completed] is the string [false], with a title
    that is not empty, passes validation: [isBoolean] takes the string.
    POST stores the task with [completed] 1 and answers 201 with
    [completed: true]; PUT on an id of the table stores [completed] 1. *)
Theorem string_false_is_stored_as_true now db q b :
  get "completed" b = Js.Str "false" →
  Js.toString (get "title" b) ≠ EmptyString →
  valid b
  ∧ completed_errors (get "completed" b) = []
  ∧ (∃ db' id title description r,
       serve to_integer production now None db (request_of POST Tasks q b)
         = (db', {| status := 201;
                    content := Json (Created id title description true) |})
       ∧ tasks db' !! id = Some r
       ∧ completed r = 1)
  ∧ (∀ p k r0,
       find to_integer db (PText p) = Some (k, r0) →
       ∃ db' r,
         serve to_integer production now None db
           (request_of PUT (TaskId p) q b)
           = (db', {| status := 200;
                      content := Json (Message "Task updated" (Some p)) |})
         ∧ tasks db' !! k = Some r
         ∧ completed r = 1).
Proof.
  intros Hc Ht.
  assert (Hv : valid b).
  { apply valid_iff. split; [done|]. right. by rewrite Hc. }
  split; [done|]. split; [by rewrite Hc|]. split.
  - eexists _, _, _, _, (created now b). rewrite post_valid by done.
    rewrite Hc. cbn [Js.truthy String.eqb negb].
    split; [reflexivity|]. split; [apply lookup_insert_eq|].
    cbn. unfold flag. by rewrite Hc.
  - intros p k r0 Hf.
    eexists _, (replaced now b r0). rewrite put_valid, Hf by done.
    split; [reflexivity|]. split; [apply lookup_insert_eq|].
    cbn. unfold flag. by rewrite Hc.
Qed.

(** A title that is missing, [null] or the empty string is answered 400
    with the error of the title field, by POST and by PUT; no statement is
    sent, and the table keeps its rows. *)
Lemma empty_title_rejected now fault db q b p :
  Js.toString (get "title" b) = EmptyString →
  let errors :=
    {| path := "title"; msg := "Title is required"; value := get "title" b |}
      :: completed_errors (get "completed" b) in
  calls_database (post_tasks (request_of POST Tasks q b)) = false
  ∧ calls_database (put_task (request_of PUT (TaskId p) q b)) = false
  ∧ serve to_integer production now fault db (request_of POST Tasks q b)
      = (db, {| status := 400; content := Json (Errors errors) |})
  ∧ serve to_integer production now fault db (request_of PUT (TaskId p) q b)
      = (db, {| status := 400; content := Json (Errors errors) |}).
Proof.
  intros Ht errors.
  assert (He : (run validateTask b).1 = errors).
  { destruct (run_validateTask b) as [-> _]. unfold title_errors.
    by rewrite Ht. }
  assert (Hv : ¬ valid b) by (unfold valid; by rewrite He).
  rewrite !rejected_body by (cbn; auto).
  rewrite post_invalid, put_invalid by done. by rewrite He.
Qed.

(** A title of whitespace only passes, and what is stored for it is the
    empty text. *)
Lemma blank_title_accepted now db q b s :
  get "title" b = Js.Str s →
  s ≠ EmptyString →
  blank s = true →
  get "completed" b = Js.Undefined →
  ∃ db' a r,
    serve to_integer production now None db (request_of POST Tasks q b)
      = (db', a)
    ∧ status a = 201
    ∧ tasks db' !! next_rowid db = Some r
    ∧ title r = EmptyString
    ∧ size (tasks db') = S (size (tasks db)).
Proof.
  intros Ht Hs Hb Hc.
  assert (Hv : valid b).
  { apply valid_iff. rewrite Ht. split; [done|by left]. }
  eexists _, _, (created now b). rewrite post_valid by done.
  split; [reflexivity|]. split; [done|].
  split; [apply lookup_insert_eq|]. cbn [tasks created title].
  split.
  - unfold stored_text. rewrite Ht. cbn [Js.toString].
    apply trim_blank in Hb. by rewrite Hb.
  - apply map_size_insert_None, next_rowid_fresh.
Qed.

End Stored.

(** ** Runs on the sample requests *)

Lemma integer_literal_decimal n : integer_literal (Js.decimal n) = Some n.
Proof.
  unfold integer_literal, Js.decimal.
  rewrite NilZero.isi.
  - cbn. by rewrite DecimalZ.of_to.
  - destruct n as [|x|x]; [done|..]; intros [= H];
      by apply DecimalPos.Unsigned.to_uint_nonnil in H.
  - destruct n as [|x|x]; [done|..]; intros [= H];
      by apply DecimalPos.Unsigned.to_uint_nonnil in H.
Qed.

(** C2. A POST whose title is three spaces is not rejected: the handler
    sends the INSERT, the row is stored with an empty title, the table has
    one row more, and the answer is 201. *)
Theorem blank_title_is_stored :
  let req := request_of POST Tasks ∅ blank_title in
  let after := serve integer_literal false 100 None Sqlite.empty req in
  calls_database (post_tasks req) = true
  ∧ after.2 = {| status := 201;
                 content := Json (Created 1 (Js.Str EmptyString)
                                    Js.Undefined false) |}
  ∧ tasks after.1 !! 1
      = Some {| title := EmptyString; description := None; completed := 0;
                created_at := 100; updated_at := 100 |}
  ∧ size (tasks after.1) = S (size (tasks Sqlite.empty)).
Proof. vm_compute. done. Qed.

(** C3. A state that the server reaches from the new database holds a row
    whose title is empty. *)
Theorem reachable_empty_title :
  ∃ db k r,
    reachable integer_literal false 100 db
    ∧ tasks db !! k = Some r
    ∧ title r = EmptyString.
Proof.
  eexists _, 1, _. split.
  - apply (reach_serve integer_literal false 100 100 Sqlite.empty None
             (request_of POST Tasks ∅ blank_title)); [constructor|done].
  - by vm_compute.
Qed.

(** C8. A GET /tasks whose limit is not a number makes the statement
    fail; the answer is the page of the final handler, which outside
    production shows the text of the driver's error, and not the JSON of
    [errorHandler]. *)
Theorem store_error_answer :
  let req := request_of GET Tasks {[ "limit" := "abc"%string ]} ∅ in
  serve integer_literal false 100 None one_task req
    = (one_task,
       {| status := 500;
          content := Html "Error: SQLITE_MISMATCH: datatype mismatch" |})
  ∧ (serve integer_literal false 100 None one_task req).2
      ≠ errorHandler datatype_mismatch.
Proof. by vm_compute. Qed.

(** C4 as worded does not hold: a PUT in the second of the creation
    leaves [updated_at] equal to [created_at]. *)
Lemma updated_in_the_same_second :
  ¬ updated_strictly_after_created integer_literal false.
Proof.
  intros H.
  destruct (H 100 100 one_task ∅ ∅ ship_release ∅ "1"%string 1
              {| title := "Buy milk"; description := None; completed := 0;
                 created_at := 100; updated_at := 100 |})
    as (db' & r' & Hput & Hget & Hlt).
  - by vm_compute.
  - by vm_compute.
  - done.
  - rewrite put_valid in Hput by (by vm_compute).
    vm_compute in Hput. injection Hput as <-.
    vm_compute in Hget. injection Hget as <-.
    cbn in Hlt. lia.
Qed.

(** C6 as worded does not hold: with eleven tasks and no parameter, the
    answer holds ten of them. *)
Lemma eleventh_task_not_listed :
  ¬ unfiltered_list_is_complete integer_literal false.
Proof.
  intros H.
  destruct (H 100 eleven_tasks ∅ ∅ (lookup_empty _)) as (rows & Hrows & Hall).
  vm_compute in Hrows. injection Hrows as <-.
  specialize (Hall 1 {| title := "Buy milk"; description := None;
                        completed := 0; created_at := 1; updated_at := 1 |}).
  assert (Hin : tasks eleven_tasks !! 1
                = Some {| title := "Buy milk"; description := None;
                          completed := 0; created_at := 1; updated_at := 1 |})
    by (by vm_compute).
  specialize (Hall Hin). revert Hall.
  apply (bool_decide_eq_false_1 _). vm_compute. reflexivity.
Qed.

(** C7 as worded does not hold: a limit of -1 goes to the database. *)
Lemma negative_limit_reaches_database :
  ¬ page_bounds_rejected integer_literal.
Proof.
  intros H.
  specialize (H (request_of GET Tasks {[ "limit" := "-1"%string ]} ∅)
                "-1"%string).
  assert (Hcall : calls_database
                    (get_tasks (request_of GET Tasks
                                  {[ "limit" := "-1"%string ]} ∅)) = true)
    by reflexivity.
  rewrite H in Hcall; [done|by left|].
  right. exists (-1). by vm_compute.
Qed.

(** The theorems above, at the sample requests. *)

Lemma post_then_get_by_id_sample :
  valid buy_milk
  ∧ integer_literal (Js.decimal (next_rowid Sqlite.empty))
      = Some (next_rowid Sqlite.empty)
  ∧ ∃ db' id title description completed r,
      serve integer_literal false 100 None Sqlite.empty
        (request_of POST Tasks ∅ buy_milk)
        = (db', {| status := 201;
                   content := Json (Created id title description completed) |})
      ∧ 0 < id
      ∧ title = clean (get "title" buy_milk)
      ∧ description = clean_optional (get "description" buy_milk)
      ∧ completed = Js.truthy (get "completed" buy_milk)
      ∧ serve integer_literal false 160 None db'
          (request_of GET (TaskId (Js.decimal id)) ∅ ∅)
        = (db', {| status := 200; content := Json (Task (id, r)) |})
      ∧ title = Js.Str (Sqlite.title r)
      ∧ as_text (bind description) = Sqlite.description r
      ∧ Sqlite.completed r = (if completed then 1 else 0)
      ∧ created_at r = updated_at r.
Proof.
  split; [vm_compute; reflexivity|]. split; [vm_compute; reflexivity|].
  apply (post_then_get_by_id integer_literal false 100 160 Sqlite.empty
           ∅ ∅ buy_milk ∅); vm_compute; reflexivity.
Defined.

Lemma put_then_get_by_id_sample :
  valid ship_release
  ∧ find integer_literal one_task (PText "1") = Some (1, milk_row)
  ∧ ∃ db' r',
      serve integer_literal false 160 None one_task
        (request_of PUT (TaskId "1") ∅ ship_release)
        = (db', {| status := 200;
                   content := Json (Message "Task updated" (Some "1"%string)) |})
      ∧ serve integer_literal false 170 None db'
          (request_of GET (TaskId "1") ∅ ∅)
        = (db', {| status := 200; content := Json (Task (1, r')) |})
      ∧ title r' = stored_text (get "title" ship_release)
      ∧ description r' = stored_description (get "description" ship_release)
      ∧ completed r' = flag (get "completed" ship_release)
      ∧ updated_at r' = 160
      ∧ created_at r' = created_at milk_row
      ∧ (created_at milk_row < 160 → created_at r' < updated_at r')
      ∧ (∀ k', k' ≠ 1 → tasks db' !! k' = tasks one_task !! k')
      ∧ seq db' = seq one_task.
Proof.
  split; [vm_compute; reflexivity|]. split; [vm_compute; reflexivity|].
  apply (put_then_get_by_id integer_literal false 160 170 one_task
           ∅ ∅ ship_release ∅ "1" 1 milk_row); vm_compute; reflexivity.
Defined.

Lemma absent_id_not_found_sample :
  valid buy_milk
  ∧ find integer_literal one_task (PText "7") = None
  ∧ find integer_literal one_task (PText "1") = Some (1, milk_row)
  ∧ (serve integer_literal false 110 None one_task
       (request_of PUT (TaskId "7") ∅ buy_milk)
       = (one_task,
          {| status := 404; content := Json (Message "Task not found" None) |})
     ∧ serve integer_literal false 110 None one_task
         (request_of DELETE (TaskId "7") ∅ ∅)
       = (one_task,
          {| status := 404; content := Json (Message "Task not found" None) |})
     ∧ serve integer_literal false 110 None one_task
         (request_of GET (TaskId "7") ∅ ∅)
       = (one_task,
          {| status := 404; content := Json (Message "Task not found" None) |}))
  ∧ ∃ db',
      serve integer_literal false 120 None one_task
        (request_of DELETE (TaskId "1") ∅ ∅)
        = (db', {| status := 200;
                   content := Json (Message "Task deleted" (Some "1"%string)) |})
      ∧ tasks db' !! 1 = None
      ∧ serve integer_literal false 130 None db'
          (request_of DELETE (TaskId "1") ∅ ∅)
        = (db', {| status := 404;
                   content := Json (Message "Task not found" None) |})
      ∧ serve integer_literal false 140 None db'
          (request_of DELETE (TaskId "1") ∅ no_title)
        = (db', {| status := 404;
                   content := Json (Message "Task not found" None) |})
      ∧ serve integer_literal false 150 None db'
          (request_of GET (TaskId "1") ∅ ∅)
        = (db', {| status := 404;
                   content := Json (Message "Task not found" None) |})
      ∧ serve integer_literal false 150 None db'
          (request_of PUT (TaskId "1") ∅ buy_milk)
        = (db', {| status := 404;
                   content := Json (Message "Task not found" None) |}).
Proof.
  assert (Hv : valid buy_milk) by (vm_compute; reflexivity).
  assert (H7 : find integer_literal one_task (PText "7") = None)
    by (vm_compute; reflexivity).
  assert (H1 : find integer_literal one_task (PText "1") = Some (1, milk_row))
    by (vm_compute; reflexivity).
  do 3 (split; [assumption|]). split.
  - destruct (absent_id_not_found integer_literal false 110 120 130 140 150
                one_task "7" ∅ buy_milk ∅ ∅ ∅ ∅ ∅ ∅ ∅ no_title ∅ ∅)
      as [Habsent _].
    destruct (Habsent H7) as (Hput & Hdel & Hget).
    split; [exact (Hput Hv)|]. by split.
  - destruct (absent_id_not_found integer_literal false 110 120 130 140 150
                one_task "1" ∅ buy_milk ∅ ∅ ∅ ∅ ∅ ∅ ∅ no_title ∅ ∅)
      as [_ Hpresent].
    destruct (Hpresent 1 milk_row H1)
      as (db' & Hdel & Hk & Hdel2 & Hdel3 & Hget & Hput).
    exists db'. do 5 (split; [assumption|]). exact (Hput Hv).
Defined.

Lemma get_tasks_page_sample :
  let q : gmap string string :=
    <["limit" := "5"%string]> {[ "completed" := "false"%string ]} in
  as_integer integer_literal (from_option PText (PInt 10) (q !! "limit"))
    = Some 5
  ∧ as_integer integer_literal (from_option PText (PInt 0) (q !! "offset"))
      = Some 0
  ∧ ∃ full rows,
      serve integer_literal false 100 None eleven_tasks
        (request_of GET Tasks q ∅)
        = (eleven_tasks,
           {| status := 200; content := Json (TaskList rows (length rows)) |})
      ∧ rows = page 5 0 full
      ∧ StronglySorted newer_first full
      ∧ (∀ s, q !! "completed" = Some s →
           full ≡ₚ filter (λ r, completed r.2
                                  = if String.eqb s "true" then 1 else 0)
                     (map_to_list (tasks eleven_tasks)))
      ∧ (q !! "completed" = None → full ≡ₚ map_to_list (tasks eleven_tasks))
      ∧ StronglySorted newer_first rows
      ∧ (∀ r, r ∈ rows → tasks eleven_tasks !! r.1 = Some r.2)
      ∧ (∀ s r, q !! "completed" = Some s → r ∈ rows →
           completed r.2 = if String.eqb s "true" then 1 else 0).
Proof.
  intros q.
  split; [vm_compute; reflexivity|]. split; [vm_compute; reflexivity|].
  apply (get_tasks_page integer_literal false 100 eleven_tasks q ∅ 5 0);
    vm_compute; reflexivity.
Defined.


Lemma string_false_is_stored_as_true_sample :
  get "completed" ship_release = Js.Str "false"
  ∧ Js.toString (get "title" ship_release) ≠ EmptyString
  ∧ find integer_literal one_task (PText "1") = Some (1, milk_row)
  ∧ valid ship_release
  ∧ completed_errors (get "completed" ship_release) = []
  ∧ (∃ db' id title description r,
       serve integer_literal false 160 None one_task
         (request_of POST Tasks ∅ ship_release)
         = (db', {| status := 201;
                    content := Json (Created id title description true) |})
       ∧ tasks db' !! id = Some r
       ∧ completed r = 1)
  ∧ (∃ db' r,
       serve integer_literal false 160 None one_task
         (request_of PUT (TaskId "1") ∅ ship_release)
         = (db', {| status := 200;
                    content := Json (Message "Task updated" (Some "1"%string)) |})
       ∧ tasks db' !! 1 = Some r
       ∧ completed r = 1).
Proof.
  assert (Hc : get "completed" ship_release = Js.Str "false")
    by (vm_compute; reflexivity).
  assert (Ht : Js.toString (get "title" ship_release) ≠ EmptyString)
    by (vm_compute; discriminate).
  assert (H1 : find integer_literal one_task (PText "1") = Some (1, milk_row))
    by (vm_compute; reflexivity).
  do 3 (split; [assumption|]).
  destruct (string_false_is_stored_as_true integer_literal false 160 one_task
              ∅ ship_release Hc Ht) as (Hv & He & Hpost & Hput).
  do 3 (split; [assumption|]).
  exact (Hput "1"%string 1 milk_row H1).
Defined.

Lemma page_passed_through_sample :
  let q : gmap string string := {[ "limit" := "-1"%string ]} in
  let req := request_of GET Tasks q ∅ in
  page_asked (get_tasks req) = Some (None, PText "-1", PInt 0)
  ∧ ∃ rows,
      serve integer_literal false 100 None eleven_tasks req
        = (eleven_tasks,
           {| status := 200; content := Json (TaskList rows (length rows)) |})
      ∧ length rows = 11%nat.
Proof.
  intros q req.
  destruct (page_passed_through integer_literal false 100 eleven_tasks q ∅)
    as (Hasked & _ & Hneg & _).
  split; [exact Hasked|].
  destruct (Hneg "-1"%string (-1)) as (rows & Hrows & Hperm);
    [vm_compute; reflexivity..|lia|].
  exists rows. split; [exact Hrows|].
  rewrite Hperm. vm_compute. reflexivity.
Defined.

(** ** More on validation and on what is stored *)

Section Bodies.

Variable to_integer : string → option Z.
Variable production : bool.

Implicit Types (db : database) (b : gmap string Js.value)
  (q : gmap string string) (p : string).

(** X1. A body of scalar fields that does not pass is answered 400 by POST
    and by PUT with the same list of errors: the error of the title, if
    its text is empty, then the error of [completed], if it is given and
    is not one of the four boolean texts.  The handler sends no statement,
    so the answer is the same when the driver is failing, and the table is
    left alone. *)
Theorem invalid_body_answer now fault db q b p :
  ¬ valid b →
  let errors := title_errors (get "title" b)
                ++ completed_errors (get "completed" b) in
  errors ≠ []
  ∧ (length errors ≤ 2)%nat
  ∧ calls_database (post_tasks (request_of POST Tasks q b)) = false
  ∧ calls_database (put_task (request_of PUT (TaskId p) q b)) = false
  ∧ serve to_integer production now fault db (request_of POST Tasks q b)
      = (db, {| status := 400; content := Json (Errors errors) |})
  ∧ serve to_integer production now fault db (request_of PUT (TaskId p) q b)
      = (db, {| status := 400; content := Json (Errors errors) |}).
Proof.
  intros Hv errors.
  assert (He : (run validateTask b).1 = errors)
    by (by destruct (run_validateTask b) as [-> _]).
  split; [unfold valid in Hv; by rewrite He in Hv|].
  split.
  { subst errors. rewrite length_app. unfold title_errors, completed_errors.
    destruct (Js.isEmpty _); destruct (get "completed" b); cbn;
      try destruct (Js.isBoolean _); cbn; lia. }
  rewrite !rejected_body by (cbn; auto).
  rewrite post_invalid, put_invalid by done. by rewrite He.
Qed.

Lemma isBoolean_decimal n :
  Js.isBoolean (Js.decimal n) = true ↔ n = 1 ∨ n = 0.
Proof.
  split; [|by intros [-> | ->]].
  unfold Js.isBoolean. rewrite !orb_true_iff, !String.eqb_eq.
  intros H. pose proof (integer_literal_decimal n) as Hn.
  destruct H as [[[H|H]|H]|H]; rewrite H in Hn; vm_compute in Hn;
    try discriminate; injection Hn as <-; auto.
Qed.

Lemma isBoolean_boolean_like v :
  Js.isBoolean (Js.toString v) = true ↔ v ∈ boolean_like.
Proof.
  unfold boolean_like. rewrite !elem_of_cons, elem_of_nil.
  destruct v as [| |[]|n|s]; cbn [Js.toString].
  - split; [done|]. intros H. by repeat destruct H as [H|H].
  - split; [done|]. intros H. by repeat destruct H as [H|H].
  - split; [auto|done].
  - split; [auto|done].
  - rewrite isBoolean_decimal. split.
    + intros [-> | ->]; auto.
    + intros H. repeat destruct H as [H|H]; try discriminate H;
        try (injection H as ->; auto). done.
  - unfold Js.isBoolean. rewrite !orb_true_iff, !String.eqb_eq. split.
    + intros [[[-> | ->]| ->]| ->]; auto 10.
    + intros H. repeat destruct H as [H|H]; try discriminate H;
        try (injection H as ->; auto). done.
Qed.

(** X2. Among the bodies of scalar fields, the ones that pass are those
    whose title has a text that is not empty (so not a missing title, not
    [null], not the empty string) and whose [completed] is absent or is
    one of [true], [false], [1], [0] or of the strings [true], [false],
    [1], [0]. *)
Theorem accepted_bodies b :
  valid b ↔
  Js.toString (get "title" b) ≠ EmptyString
  ∧ (get "completed" b = Js.Undefined ∨ get "completed" b ∈ boolean_like).
Proof. by rewrite valid_iff, isBoolean_boolean_like. Qed.

(** X3. For a body of scalar fields that passes, POST stores [completed]
    as 1 when the value given is [true], [1] or any of the four strings,
    the strings [false] and [0] included, and as 0 when it is absent,
    [false] or the number 0. *)
Theorem stored_completed now db q b :
  valid b →
  ∃ db' a r,
    serve to_integer production now None db (request_of POST Tasks q b)
      = (db', a)
    ∧ tasks db' !! next_rowid db = Some r
    ∧ (completed r = 1 ↔ get "completed" b ∈ taken_as_true)
    ∧ (completed r = 0 ↔
       get "completed" b ∈ [Js.Undefined; Js.Bool false; Js.Num 0]).
Proof.
  intros Hv. eexists _, _, (created now b). rewrite post_valid by done.
  split; [reflexivity|]. split; [apply lookup_insert_eq|].
  cbn [created completed]. unfold flag, taken_as_true.
  apply accepted_bodies in Hv as [_ Hc].
  assert (Hcases : get "completed" b ∈ Js.Undefined :: boolean_like).
  { apply elem_of_cons. destruct Hc; [by left|by right]. }
  clear Hc. unfold boolean_like in Hcases.
  repeat (apply elem_of_cons in Hcases as [->|Hcases]);
    [..|by apply elem_of_nil in Hcases]; cbn;
    (split; split; intros H; try done; try (exfalso; lia);
     repeat (apply elem_of_cons in H as [H|H]; try discriminate H);
     try (by apply elem_of_nil in H);
     rewrite ?elem_of_cons; auto 10).
Qed.


(** X5. Sending a task its own stored title again is not always a no-op:
    for a stored title that is sanitized, a PUT of a body that passes and
    gives that title stores the same title exactly when the title holds no
    [&]; otherwise each [&] is escaped once more. *)
Theorem title_put_back now db q b p k r :
  valid b →
  find to_integer db (PText p) = Some (k, r) →
  sanitized (title r) →
  get "title" b = Js.Str (title r) →
  ∃ db' r',
    serve to_integer production now None db (request_of PUT (TaskId p) q b)
      = (db', {| status := 200;
                 content := Json (Message "Task updated" (Some p)) |})
    ∧ tasks db' !! k = Some r'
    ∧ title r' = Js.escape (title r)
    ∧ (title r' = title r ↔
       ∀ x, x ∈ list_ascii_of_string (title r) → x ≠ "&"%char).
Proof.
  intros Hv Hf (Hfirst & Hlast & Hsafe) Ht.
  eexists _, (replaced now b r). rewrite put_valid, Hf by done.
  split; [reflexivity|]. split; [apply lookup_insert_eq|].
  cbn [replaced title]. unfold stored_text. rewrite Ht. cbn [Js.toString].
  rewrite trim_fixed by done. split; [done|].
  rewrite escape_fixed. split.
  - intros H x Hx ->. by specialize (H _ Hx).
  - intros H x Hx. destruct (Hsafe x Hx) as [He| ->]; [done|].
    by specialize (H _ Hx).
Qed.

End Bodies.

(** ** More on the table *)

Section Rows.

Variable to_integer : string → option Z.
Variable production : bool.

Implicit Types (db : database) (b : gmap string Js.value)
  (q : gmap string string) (p : string).

Lemma seq_step db db' :
  step to_integer production db db' → seq db ≤ seq db'.
Proof.
  intros (now & fault & req & ->).
  destruct (serve_effect to_integer production now fault db req)
    as [|b|k0 r0 b Hk0|k0]; cbn [seq]; try done.
  pose proof (next_rowid_seq db). lia.
Qed.

Lemma seq_steps db db' :
  rtc (step to_integer production) db db' → seq db ≤ seq db'.
Proof.
  induction 1 as [db|db db1 db2 Hs _ IH]; [done|].
  apply seq_step in Hs. lia.
Qed.

(** X6. Ids grow: the id that a POST gives is smaller than the id that any
    later POST gives, whatever requests come in between, deletions of the
    first task included. *)
Theorem later_id_is_larger now now' db db2 q q' b b' :
  valid b →
  valid b' →
  rtc (step to_integer production)
    (serve to_integer production now None db (request_of POST Tasks q b)).1
    db2 →
  ∃ id title description completed id' title' description' completed' db3,
    (serve to_integer production now None db (request_of POST Tasks q b)).2
      = {| status := 201;
           content := Json (Created id title description completed) |}
    ∧ serve to_integer production now' None db2 (request_of POST Tasks q' b')
      = (db3, {| status := 201;
                 content := Json (Created id' title' description'
                                    completed') |})
    ∧ id < id'.
Proof.
  intros Hv Hv'. rewrite post_valid by done. intros Hsteps.
  do 9 eexists. split; [reflexivity|].
  split; [by rewrite post_valid|].
  apply seq_steps in Hsteps. cbn [fst seq] in Hsteps.
  pose proof (next_rowid_seq db2). lia.
Qed.

(** X7. A POST of a body that passes adds one row, under a key that had
    none, and leaves every row of the table as it was. *)
Theorem post_adds_one_row now db q b :
  valid b →
  let db' := (serve to_integer production now None db
                (request_of POST Tasks q b)).1 in
  size (tasks db') = S (size (tasks db))
  ∧ tasks db !! next_rowid db = None
  ∧ is_Some (tasks db' !! next_rowid db)
  ∧ ∀ k r, tasks db !! k = Some r → tasks db' !! k = Some r.
Proof.
  intros Hv db'. subst db'. rewrite post_valid by done. cbn [fst tasks].
  pose proof (next_rowid_fresh db) as Hfresh.
  split; [by apply map_size_insert_None|]. split; [done|].
  split; [by rewrite lookup_insert_eq|].
  intros k r Hk. rewrite lookup_insert_ne; [done|congruence].
Qed.

(** X8. A DELETE of an id of the table removes that one row: the table
    has one row less, every other row is as it was, and the counter of
    AUTOINCREMENT is not moved. *)
Theorem delete_removes_one_row now db q b p k r :
  find to_integer db (PText p) = Some (k, r) →
  let db' := (serve to_integer production now None db
                (request_of DELETE (TaskId p) q b)).1 in
  size (tasks db) = S (size (tasks db'))
  ∧ tasks db' !! k = None
  ∧ (∀ k', k' ≠ k → tasks db' !! k' = tasks db !! k')
  ∧ seq db' = seq db.
Proof.
  intros Hf db'. subst db'. rewrite delete_served, Hf. cbn [fst tasks seq].
  apply find_Some in Hf.
  split.
  { rewrite <- (insert_delete_id (tasks db) k r Hf) at 1.
    apply map_size_insert_None, lookup_delete_eq. }
  split; [apply lookup_delete_eq|].
  split; [|done]. intros k' Hk. by rewrite lookup_delete_ne.
Qed.

(** X9. A GET never changes the table: not on a route, not elsewhere, not
    when the driver fails, not when the body cannot be parsed. *)
Theorem get_is_read_only now fault db req :
  method_of req = GET →
  (serve to_integer production now fault db req).1 = db.
Proof.
  destruct req as [m t [bad|] q b]; cbn [method_of]; intros ->;
    [reflexivity|].
  destruct fault as [err|]; [apply fault_keeps_table|].
  destruct t.
  - reflexivity.
  - change {| method_of := GET; target_of := Tasks; malformed := None;
              query := q; body_of := b |} with (request_of GET Tasks q b).
    rewrite get_tasks_served.
    destruct (as_integer _ _); [destruct (as_integer _ _)|]; done.
  - change {| method_of := GET; target_of := TaskId id; malformed := None;
              query := q; body_of := b |}
      with (request_of GET (TaskId id) q b).
    rewrite get_task_served. by destruct (find _ _ _).
  - reflexivity.
Qed.

(** X10. A request that no route takes, such as a PUT or a DELETE of
    /tasks or a POST of /tasks/:id, is answered 404 by Express with the
    page [Cannot METHOD path]; the table is left alone. *)
Theorem no_route_answer now fault db req :
  malformed req = None →
  route (method_of req) (target_of req) = None →
  serve to_integer production now fault db req
    = (db, {| status := 404;
              content := Html (String.append "Cannot "
                                 (String.append (method_name (method_of req))
                                    (String.append " "
                                       (url (target_of req))))) |}).
Proof. intros Hp Hr. by rewrite serve_route, Hr. Qed.

(** X11. A PUT replaces the whole task: a body that passes and gives
    neither a description nor [completed] sets the description to NULL and
    [completed] to 0, whatever they were; the number of rows is the
    same. *)
Theorem put_clears_what_is_omitted now db q b p k r :
  valid b →
  get "description" b = Js.Undefined →
  get "completed" b = Js.Undefined →
  find to_integer db (PText p) = Some (k, r) →
  let db' := (serve to_integer production now None db
                (request_of PUT (TaskId p) q b)).1 in
  ∃ r',
    tasks db' !! k = Some r'
    ∧ description r' = None
    ∧ completed r' = 0
    ∧ size (tasks db') = size (tasks db).
Proof.
  intros Hv Hd Hc Hf db'. subst db'. rewrite put_valid, Hf by done.
  cbn [fst tasks]. exists (replaced now b r).
  split; [apply lookup_insert_eq|]. cbn [replaced description completed].
  rewrite Hd. unfold flag. rewrite Hc.
  split; [done|]. split; [done|].
  apply find_Some in Hf. by rewrite (map_size_insert_Some k _ (tasks db)).
Qed.

(** X12. In every state the server reaches with a clock that does not go
    back, every key is positive and at most the counter of AUTOINCREMENT,
    and every row was created no later than it was last updated, which is
    no later than the clock reading. *)
Theorem reachable_keys_and_times t db k r :
  reachable to_integer production t db →
  tasks db !! k = Some r →
  0 < k ≤ seq db ∧ created_at r ≤ updated_at r ≤ t.
Proof. intros Hr. by apply (reachable_well_formed _ _ t db Hr). Qed.

(** X13. In every state the server reaches, [completed] is 0 or 1 in every
    row, so that each task is in exactly one of the listings
    [?completed=true] and [?completed=s] for any other text [s]. *)
Theorem flags_are_boolean t db k r s :
  reachable to_integer production t db →
  tasks db !! k = Some r →
  s ≠ "true"%string →
  (completed r = 0 ∨ completed r = 1)
  ∧ where_completed (filter_of {[ "completed" := "true"%string ]}) (k, r)
    = negb (where_completed (filter_of {[ "completed" := s ]}) (k, r)).
Proof.
  intros Hr Hk Hs.
  assert (Hflag : completed r = 0 ∨ completed r = 1).
  { clear Hs. revert k r Hk.
    induction Hr as [t|t t' db fault req Hr IH Ht]; intros k r.
    { unfold Sqlite.empty. cbn [tasks]. by rewrite lookup_empty. }
    destruct (serve_effect to_integer production t' fault db req)
      as [|b|k0 r0 b Hk0|k0]; cbn [tasks].
    - apply IH.
    - rewrite lookup_insert. case_decide; [|apply IH].
      intros [= <-]. cbn. unfold flag. destruct (Js.truthy _); auto.
    - rewrite lookup_insert. case_decide; [|apply IH].
      intros [= <-]. cbn. unfold flag. destruct (Js.truthy _); auto.
    - rewrite lookup_delete. case_decide; [done|apply IH]. }
  split; [done|]. unfold filter_of. rewrite !lookup_singleton_eq.
  cbn [fmap option_fmap option_map where_completed snd].
  apply String.eqb_neq in Hs. rewrite Hs. cbn.
  destruct Hflag as [-> | ->]; reflexivity.
Qed.

End Rows.

(** ** More on listing *)

Section Pages.

Variable to_integer : string → option Z.
Variable production : bool.

#[local] Existing Instances newer_first_total newer_first_trans.

Implicit Types (db : database) (q : gmap string string) (rows : list row).

Lemma listed_rows now db q l o :
  as_integer to_integer (from_option PText (PInt 10) (q !! "limit")) = Some l →
  as_integer to_integer (from_option PText (PInt 0) (q !! "offset")) = Some o →
  listed to_integer production now db q
    = Some (select_page db (filter_of q) l o).
Proof.
  intros Hl Ho. unfold listed. by rewrite get_tasks_served, Hl, Ho.
Qed.

Lemma page_sublist l o rows : page l o rows `sublist_of` rows.
Proof.
  unfold page. destruct (l <? 0).
  - apply sublist_drop.
  - etrans; [apply sublist_take|apply sublist_drop].
Qed.

Lemma page_query_lookup c l o :
  page_query c l o !! "completed" = Some c
  ∧ page_query c l o !! "limit" = Some l
  ∧ page_query c l o !! "offset" = Some o.
Proof.
  unfold page_query. split; [|split].
  - apply lookup_insert_eq.
  - rewrite lookup_insert_ne by done. apply lookup_insert_eq.
  - rewrite !lookup_insert_ne by done. apply lookup_singleton_eq.
Qed.

(** X14. When the limit and the offset are absent or read as integers,
    GET /tasks lists no task twice and no more tasks than the table has;
    no more than the limit when it is not negative, so no more than ten
    when it is absent; and none when the limit is 0 or the offset is at
    or past the number of tasks. *)
Theorem listing_bounds now db q l o :
  as_integer to_integer (from_option PText (PInt 10) (q !! "limit")) = Some l →
  as_integer to_integer (from_option PText (PInt 0) (q !! "offset")) = Some o →
  ∃ rows,
    listed to_integer production now db q = Some rows
    ∧ NoDup rows
    ∧ (length rows ≤ size (tasks db))%nat
    ∧ (0 ≤ l → (length rows ≤ Z.to_nat l)%nat)
    ∧ (q !! "limit" = None → (length rows ≤ 10)%nat)
    ∧ (l = 0 ∨ Z.of_nat (size (tasks db)) ≤ o → rows = []).
Proof.
  intros Hl Ho. eexists. split; [by apply listed_rows|].
  unfold select_page.
  set (kept := filter _ (map_to_list (tasks db))).
  set (full := merge_sort newer_first kept).
  assert (Hperm : full ≡ₚ kept) by apply merge_sort_Permutation.
  assert (Hkept : (length kept ≤ size (tasks db))%nat).
  { subst kept. rewrite <- length_map_to_list. apply length_filter. }
  assert (Hfull : (length full ≤ size (tasks db))%nat) by (by rewrite Hperm).
  pose proof (page_sublist l o full) as Hsub.
  split.
  { refine (sublist_NoDup _ _ _ Hsub). rewrite Hperm. subst kept.
    apply NoDup_filter, NoDup_map_to_list. }
  split; [apply sublist_length in Hsub; lia|].
  split; [apply page_length|].
  split.
  { intros Hq. rewrite Hq in Hl. cbn in Hl. injection Hl as <-.
    by apply (page_length 10 o full). }
  intros [-> | Ho']; unfold page.
  - by rewrite take_0.
  - rewrite (drop_ge full) by lia. rewrite take_nil. by destruct (l <? 0).
Qed.

(** X15. Pages follow one another: with a limit [l] and an offset [o] that
    are not negative, the page at offset [o] followed by the page at
    offset [o + l] is the page of limit [2 l] at offset [o], on a table
    that has not changed in between. *)
Theorem pages_compose now db c sl so so' sl2 l o :
  to_integer sl = Some l →
  to_integer so = Some o →
  to_integer so' = Some (o + l) →
  to_integer sl2 = Some (2 * l) →
  0 ≤ l →
  0 ≤ o →
  ∃ first second,
    listed to_integer production now db (page_query c sl so) = Some first
    ∧ listed to_integer production now db (page_query c sl so') = Some second
    ∧ listed to_integer production now db (page_query c sl2 so)
      = Some (first ++ second).
Proof.
  intros Hsl Hso Hso' Hsl2 Hl Ho.
  assert (Hlisted : ∀ x y n m,
    to_integer x = Some n → to_integer y = Some m →
    listed to_integer production now db (page_query c x y)
      = Some (select_page db (filter_of (page_query c x y)) n m)).
  { intros x y n m Hx Hy. apply listed_rows.
    - destruct (page_query_lookup c x y) as (_ & -> & _). by cbn.
    - destruct (page_query_lookup c x y) as (_ & _ & ->). by cbn. }
  assert (Hfilter : ∀ x y, filter_of (page_query c x y)
                           = Some (if String.eqb c "true" then 1 else 0)).
  { intros x y. unfold filter_of.
    by destruct (page_query_lookup c x y) as (-> & _ & _). }
  do 2 eexists. rewrite !(Hlisted _ _ _ _ Hsl Hso),
    (Hlisted _ _ _ _ Hsl Hso'), (Hlisted _ _ _ _ Hsl2 Hso), !Hfilter.
  do 2 (split; [reflexivity|]). f_equal.
  unfold select_page, page.
  replace (l <? 0) with false by (symmetry; apply Z.ltb_ge; lia).
  replace (2 * l <? 0) with false by (symmetry; apply Z.ltb_ge; lia).
  replace (Z.to_nat (o + l)) with (Z.to_nat o + Z.to_nat l)%nat by lia.
  replace (Z.to_nat (2 * l)) with (Z.to_nat l + Z.to_nat l)%nat by lia.
  rewrite <- drop_drop. symmetry. apply take_take_drop.
Qed.

Lemma sorted_head (x : row) (full : list row) :
  StronglySorted newer_first full →
  x ∈ full →
  (∀ y, y ∈ full → y ≠ x → created_at y.2 < created_at x.2) →
  ∃ rest, full = x :: rest.
Proof.
  intros Hs Hx Hnew. destruct full as [|h rest]; [by apply elem_of_nil in Hx|].
  exists rest. f_equal. destruct (decide (h = x)) as [|Hne]; [done|].
  exfalso. apply elem_of_cons in Hx as [->|Hx]; [done|].
  apply StronglySorted_inv in Hs as [_ Hall].
  rewrite Forall_forall in Hall. specialize (Hall x Hx).
  unfold newer_first in Hall.
  assert (created_at h.2 < created_at x.2);
    [apply Hnew; [apply elem_of_cons; by left|done]|lia].
Qed.

(** X16. A task created at a later second than every other task comes
    first in the listing without parameters. *)
Theorem newest_task_is_listed_first now now' db q b :
  valid b →
  (∀ k r, tasks db !! k = Some r → created_at r < now) →
  q !! "completed" = None →
  q !! "limit" = None →
  q !! "offset" = None →
  let db' := (serve to_integer production now None db
                (request_of POST Tasks ∅ b)).1 in
  ∃ rest,
    listed to_integer production now' db' q
      = Some ((next_rowid db, created now b) :: rest).
Proof.
  intros Hv Hold Hc Hl Ho db'. subst db'. rewrite post_valid by done.
  cbn [fst].
  erewrite listed_rows; [|by rewrite Hl|by rewrite Ho].
  unfold select_page, filter_of. rewrite Hc.
  cbn [fmap option_fmap option_map where_completed tasks].
  rewrite filter_everything by done.
  set (table := <[next_rowid db := created now b]> (tasks db)).
  set (full := merge_sort newer_first (map_to_list table)).
  assert (Hperm : full ≡ₚ map_to_list table) by apply merge_sort_Permutation.
  destruct (sorted_head (next_rowid db, created now b) full) as [rest Hfull].
  - apply StronglySorted_merge_sort; apply _.
  - rewrite Hperm. apply elem_of_map_to_list. apply lookup_insert_eq.
  - intros [k r]. rewrite Hperm. intros Hy Hne.
    apply elem_of_map_to_list in Hy. subst table.
    rewrite lookup_insert in Hy. case_decide as Hk.
    + injection Hy as <-. by subst k.
    + cbn. by apply (Hold k).
  - rewrite Hfull. by eexists.
Qed.

Lemma status_500_iff now db req :
  malformed req = None →
  status (serve to_integer production now None db req).2 = 500 ↔
  method_of req = GET ∧ target_of req = Tasks
  ∧ (as_integer to_integer
       (from_option PText (PInt 10) (query req !! "limit")) = None
     ∨ as_integer to_integer
         (from_option PText (PInt 0) (query req !! "offset")) = None).
Proof.
  destruct req as [m t bad q b]. cbn [malformed method_of target_of query].
  intros ->.
  change {| method_of := m; target_of := t; malformed := None;
            query := q; body_of := b |} with (request_of m t q b).
  destruct m, t;
    try (split; [by (cbn; discriminate)|by intros (? & ? & ?)]).
  - rewrite get_tasks_served.
    destruct (as_integer _ _) as [l|]; [destruct (as_integer _ _) as [o|]|];
      cbn; split; try discriminate; try tauto; intros (_ & _ & [H|H]);
      discriminate.
  - rewrite get_task_served.
    destruct (find _ _ _); (split; [by (cbn; discriminate)|by intros (? & ? & ?)]).
  - destruct (valid_or_not b) as [Hv|Hv];
      [rewrite post_valid by done|rewrite post_invalid by done];
      (split; [by (cbn; discriminate)|by intros (? & ? & ?)]).
  - destruct (valid_or_not b) as [Hv|Hv];
      [rewrite put_valid by done; destruct (find _ _ _) as [[k r]|]
      |rewrite put_invalid by done];
      (split; [by (cbn; discriminate)|by intros (? & ? & ?)]).
  - rewrite delete_served.
    destruct (find _ _ _) as [[k r]|];
      (split; [by (cbn; discriminate)|by intros (? & ? & ?)]).
Qed.

(** X17. When the body is parsed and the driver does not fail, the one
    request that is answered 500 is a GET /tasks whose limit or offset
    does not read as an integer; every answer has status 200, 201, 400,
    404 or 500, so every other request is answered 200, 201, 400 or
    404. *)
Theorem server_error_only_from_paging now db req :
  malformed req = None →
  (status (serve to_integer production now None db req).2 = 500 ↔
   method_of req = GET ∧ target_of req = Tasks
   ∧ (as_integer to_integer
        (from_option PText (PInt 10) (query req !! "limit")) = None
      ∨ as_integer to_integer
          (from_option PText (PInt 0) (query req !! "offset")) = None))
  ∧ status (serve to_integer production now None db req).2
      ∈ [200; 201; 400; 404; 500]
  ∧ (status (serve to_integer production now None db req).2 ≠ 500 →
     status (serve to_integer production now None db req).2
       ∈ [200; 201; 400; 404]).
Proof.
  intros Hp.
  assert (Hall : status (serve to_integer production now None db req).2
                   ∈ [200; 201; 400; 404; 500]).
  { destruct req as [m t bad q b]. cbn [malformed] in Hp. subst bad.
    change {| method_of := m; target_of := t; malformed := None;
              query := q; body_of := b |} with (request_of m t q b).
    rewrite !elem_of_cons.
    destruct m, t; try (cbn; by auto 10).
    - rewrite get_tasks_served.
      destruct (as_integer _ _) as [l|]; [destruct (as_integer _ _) as [o|]|];
        cbn; auto 10.
    - rewrite get_task_served. destruct (find _ _ _); cbn; auto 10.
    - destruct (valid_or_not b) as [Hv|Hv];
        [rewrite post_valid by done|rewrite post_invalid by done];
        cbn; auto 10.
    - destruct (valid_or_not b) as [Hv|Hv];
        [rewrite put_valid by done; destruct (find _ _ _) as [[k r]|]
        |rewrite put_invalid by done]; cbn; auto 10.
    - rewrite delete_served. destruct (find _ _ _) as [[k r]|]; cbn; auto 10. }
  split; [by apply status_500_iff|]. split; [exact Hall|].
  intros Hne. rewrite !elem_of_cons in *.
  destruct Hall as [H|[H|[H|[H|[H|H]]]]];
    first [by auto 10|congruence|by apply elem_of_nil in H].
Qed.

End Pages.

(** ** More on errors and on ids *)

Section Lifetimes.

Variable to_integer : string → option Z.
Variable production : bool.

Implicit Types (db : database) (b : gmap string Js.value)
  (q : gmap string string) (p : string).

(** X18. A request whose body [express.json()] cannot parse is answered by
    [errorHandler], on every path and for every method: status 500 and the
    JSON [{error: 'Something went wrong!'}], with nothing of the parser's
    error in it; no statement is sent. *)
Theorem unparsed_body_answer now fault db req err :
  malformed req = Some err →
  serve to_integer production now fault db req
    = (db, {| status := 500;
              content := Json (Error "Something went wrong!") |}).
Proof.
  intros Hbad. by rewrite (malformed_body_answer _ _ now fault db req err).
Qed.

(** X19. When the driver fails the statement that the handler of a request
    sends, the table is left as it was and the answer is the page of
    Express's final handler with status 500: it shows the stack of the
    driver's error, or [Internal Server Error] in production. *)
Theorem driver_failure_answer now err db req handle :
  malformed req = None →
  route (method_of req) (target_of req) = Some handle →
  calls_database (handle req) = true →
  serve to_integer production now (Some err) db req
    = (db, {| status := 500;
              content := Html (if production then "Internal Server Error"
                               else stack err) |}).
Proof.
  intros Hp Hr Hcall. rewrite serve_route, Hr by done.
  destruct req as [m t bad q b]. cbn [method_of target_of] in Hr.
  destruct m, t; try discriminate Hr; injection Hr as <-; revert Hcall;
    unfold root, post_tasks, put_task, get_tasks, get_task, delete_task;
    cbn [body_of]; try destruct (run validateTask b) as [[|e errs] b'];
    by cbn.
Qed.

(** X20. An id that was deleted stays free: in a state the server has
    reached, after a DELETE of an id of the table and any requests that
    follow, a GET of that id is answered 404. *)
Theorem deleted_id_stays_free t now now' db db2 q b p k r :
  reachable to_integer production t db →
  find to_integer db (PText p) = Some (k, r) →
  rtc (step to_integer production)
    (serve to_integer production now None db
       (request_of DELETE (TaskId p) q b)).1
    db2 →
  serve to_integer production now' None db2 (request_of GET (TaskId p) q b)
    = (db2, {| status := 404;
               content := Json (Message "Task not found" None) |}).
Proof.
  intros Hr Hf. rewrite delete_served, Hf. cbn [fst]. intros Hsteps.
  assert (Hk : k ≤ seq db).
  { apply find_Some in Hf.
    destruct (reachable_well_formed _ _ t db Hr k r Hf). lia. }
  destruct (id_never_reused to_integer production _ db2 k Hsteps) as [Hnone _].
  { done. }
  { apply lookup_delete_eq. }
  rewrite get_task_served.
  assert (find to_integer db2 (PText p) = None) as ->; [|done].
  unfold find in *. cbn [as_integer] in *.
  destruct (to_integer p) as [k0|]; [|done]. cbn in *.
  destruct (tasks db !! k0) as [r0|]; [|done]. cbn in Hf.
  injection Hf as -> ->. by rewrite Hnone.
Qed.

Lemma created_at_kept db db' k r r' :
  rtc (step to_integer production) db db' →
  k ≤ seq db →
  tasks db !! k = Some r →
  tasks db' !! k = Some r' →
  created_at r' = created_at r.
Proof.
  intros Hsteps. revert r.
  induction Hsteps as [db|db db1 db2 Hstep Hsteps IH]; intros r Hk Hr Hr'.
  { congruence. }
  pose proof (seq_step _ _ _ _ Hstep) as Hseq.
  destruct (tasks db1 !! k) as [r1|] eqn:Hr1.
  - rewrite (IH r1) by (done || lia).
    destruct Hstep as (now & fault & req & ->).
    by apply (id_not_mutated to_integer production now db fault req k).
  - destruct (id_never_reused to_integer production db1 db2 k Hsteps)
      as [Hnone _]; [lia|done|congruence].
Qed.

(** X21. [created_at] is set once: in a state the server has reached, the
    row that an id has after any further requests has the [created_at] of
    the row the id has now. *)
Theorem created_at_is_permanent t db db' k r r' :
  reachable to_integer production t db →
  rtc (step to_integer production) db db' →
  tasks db !! k = Some r →
  tasks db' !! k = Some r' →
  created_at r' = created_at r.
Proof.
  intros Hreach Hsteps Hr Hr'.
  apply (created_at_kept db db' k r r'); try done.
  destruct (reachable_well_formed _ _ t db Hreach k r Hr). lia.
Qed.

End Lifetimes.

(** ** The further properties at the sample requests *)

Lemma one_task_reachable : reachable integer_literal false 100 one_task.
Proof.
  apply (reach_serve integer_literal false 100 100 Sqlite.empty None
           (request_of POST Tasks ∅ buy_milk)); [constructor|done].
Defined.

Lemma invalid_body_answer_sample :
  ¬ valid no_title
  ∧ let errors := title_errors (get "title" no_title)
                  ++ completed_errors (get "completed" no_title) in
    errors ≠ []
    ∧ (length errors ≤ 2)%nat
    ∧ calls_database (post_tasks (request_of POST Tasks ∅ no_title)) = false
    ∧ calls_database (put_task (request_of PUT (TaskId "1") ∅ no_title))
      = false
    ∧ serve integer_literal false 100 None one_task
        (request_of POST Tasks ∅ no_title)
      = (one_task, {| status := 400; content := Json (Errors errors) |})
    ∧ serve integer_literal false 100 None one_task
        (request_of PUT (TaskId "1") ∅ no_title)
      = (one_task, {| status := 400; content := Json (Errors errors) |}).
Proof.
  assert (Hv : ¬ valid no_title) by (vm_compute; discriminate).
  split; [exact Hv|].
  exact (invalid_body_answer integer_literal false 100 None one_task ∅
           no_title "1" Hv).
Defined.

Lemma stored_completed_sample :
  valid ship_release
  ∧ ∃ db' a r,
      serve integer_literal false 160 None one_task
        (request_of POST Tasks ∅ ship_release) = (db', a)
      ∧ tasks db' !! next_rowid one_task = Some r
      ∧ (completed r = 1 ↔ get "completed" ship_release ∈ taken_as_true)
      ∧ (completed r = 0 ↔
         get "completed" ship_release
           ∈ [Js.Undefined; Js.Bool false; Js.Num 0]).
Proof.
  assert (Hv : valid ship_release) by (vm_compute; reflexivity).
  split; [exact Hv|].
  exact (stored_completed integer_literal false 160 one_task ∅
           ship_release Hv).
Defined.


Lemma chips_row_sanitized : sanitized (title chips_row).
Proof.
  split; [|split].
  - intros c Hc. vm_compute in Hc. injection Hc as <-. reflexivity.
  - intros c Hc. vm_compute in Hc. injection Hc as <-. reflexivity.
  - intros x Hx. vm_compute in Hx.
    repeat (apply elem_of_cons in Hx as [->|Hx];
            [first [by left|by right]|]).
    by apply elem_of_nil in Hx.
Defined.

Lemma title_put_back_sample :
  valid fish_and_chips_again
  ∧ find integer_literal chips_task (PText "1") = Some (1, chips_row)
  ∧ sanitized (title chips_row)
  ∧ get "title" fish_and_chips_again = Js.Str (title chips_row)
  ∧ ∃ db' r',
      serve integer_literal false 160 None chips_task
        (request_of PUT (TaskId "1") ∅ fish_and_chips_again)
        = (db', {| status := 200;
                   content := Json (Message "Task updated"
                                      (Some "1"%string)) |})
      ∧ tasks db' !! 1 = Some r'
      ∧ title r' = Js.escape (title chips_row)
      ∧ (title r' = title chips_row ↔
         ∀ x, x ∈ list_ascii_of_string (title chips_row) → x ≠ "&"%char).
Proof.
  assert (Hv : valid fish_and_chips_again) by (vm_compute; reflexivity).
  assert (Hf : find integer_literal chips_task (PText "1")
               = Some (1, chips_row)) by (vm_compute; reflexivity).
  assert (Ht : get "title" fish_and_chips_again = Js.Str (title chips_row))
    by (vm_compute; reflexivity).
  split; [exact Hv|]. split; [exact Hf|].
  split; [exact chips_row_sanitized|]. split; [exact Ht|].
  exact (title_put_back integer_literal false 160 chips_task ∅
           fish_and_chips_again "1" 1 chips_row Hv Hf chips_row_sanitized Ht).
Defined.

Lemma emptied_then_refilled : rtc (step integer_literal false) emptied refilled.
Proof.
  apply rtc_once.
  exists 120, None, (request_of POST Tasks ∅ ship_release). reflexivity.
Defined.

Lemma later_id_is_larger_sample :
  valid buy_milk
  ∧ valid ship_release
  ∧ rtc (step integer_literal false)
      (serve integer_literal false 100 None Sqlite.empty
         (request_of POST Tasks ∅ buy_milk)).1
      emptied
  ∧ ∃ id title description completed id' title' description' completed' db3,
      (serve integer_literal false 100 None Sqlite.empty
         (request_of POST Tasks ∅ buy_milk)).2
        = {| status := 201;
             content := Json (Created id title description completed) |}
      ∧ serve integer_literal false 120 None emptied
          (request_of POST Tasks ∅ ship_release)
        = (db3, {| status := 201;
                   content := Json (Created id' title' description'
                                      completed') |})
      ∧ id < id'.
Proof.
  assert (Hv : valid buy_milk) by (vm_compute; reflexivity).
  assert (Hv' : valid ship_release) by (vm_compute; reflexivity).
  assert (Hsteps : rtc (step integer_literal false)
                     (serve integer_literal false 100 None Sqlite.empty
                        (request_of POST Tasks ∅ buy_milk)).1
                     emptied).
  { apply rtc_once.
    exists 110, None, (request_of DELETE (TaskId "1") ∅ ∅). reflexivity. }
  split; [exact Hv|]. split; [exact Hv'|]. split; [exact Hsteps|].
  exact (later_id_is_larger integer_literal false 100 120 Sqlite.empty
           emptied ∅ ∅ buy_milk ship_release Hv Hv' Hsteps).
Defined.

Lemma post_adds_one_row_sample :
  valid ship_release
  ∧ let db' := (serve integer_literal false 160 None one_task
                  (request_of POST Tasks ∅ ship_release)).1 in
    size (tasks db') = S (size (tasks one_task))
    ∧ tasks one_task !! next_rowid one_task = None
    ∧ is_Some (tasks db' !! next_rowid one_task)
    ∧ ∀ k r, tasks one_task !! k = Some r → tasks db' !! k = Some r.
Proof.
  assert (Hv : valid ship_release) by (vm_compute; reflexivity).
  split; [exact Hv|].
  exact (post_adds_one_row integer_literal false 160 one_task ∅
           ship_release Hv).
Defined.

Lemma delete_removes_one_row_sample :
  find integer_literal one_task (PText "1") = Some (1, milk_row)
  ∧ let db' := (serve integer_literal false 110 None one_task
                  (request_of DELETE (TaskId "1") ∅ ∅)).1 in
    size (tasks one_task) = S (size (tasks db'))
    ∧ tasks db' !! 1 = None
    ∧ (∀ k', k' ≠ 1 → tasks db' !! k' = tasks one_task !! k')
    ∧ seq db' = seq one_task.
Proof.
  assert (Hf : find integer_literal one_task (PText "1") = Some (1, milk_row))
    by (vm_compute; reflexivity).
  split; [exact Hf|].
  exact (delete_removes_one_row integer_literal false 110 one_task ∅ ∅
           "1" 1 milk_row Hf).
Defined.

Lemma get_is_read_only_sample :
  let req := request_of GET Tasks {[ "limit" := "abc"%string ]} ∅ in
  method_of req = GET
  ∧ (serve integer_literal false 100 None one_task req).1 = one_task.
Proof.
  intros req. split; [reflexivity|].
  exact (get_is_read_only integer_literal false 100 None one_task req
           eq_refl).
Defined.

Lemma no_route_answer_sample :
  let req := request_of PUT Tasks ∅ buy_milk in
  malformed req = None
  ∧ route (method_of req) (target_of req) = None
  ∧ serve integer_literal false 100 None one_task req
    = (one_task, {| status := 404; content := Html "Cannot PUT /tasks" |}).
Proof.
  intros req. split; [reflexivity|]. split; [reflexivity|].
  exact (no_route_answer integer_literal false 100 None one_task req
           eq_refl eq_refl).
Defined.

Lemma put_clears_what_is_omitted_sample :
  valid buy_milk
  ∧ get "description" buy_milk = Js.Undefined
  ∧ get "completed" buy_milk = Js.Undefined
  ∧ find integer_literal shipped_task (PText "1") = Some (1, shipped_row)
  ∧ description shipped_row ≠ None
  ∧ completed shipped_row = 1
  ∧ let db' := (serve integer_literal false 160 None shipped_task
                  (request_of PUT (TaskId "1") ∅ buy_milk)).1 in
    ∃ r',
      tasks db' !! 1 = Some r'
      ∧ description r' = None
      ∧ completed r' = 0
      ∧ size (tasks db') = size (tasks shipped_task).
Proof.
  assert (Hv : valid buy_milk) by (vm_compute; reflexivity).
  assert (Hd : get "description" buy_milk = Js.Undefined)
    by (vm_compute; reflexivity).
  assert (Hc : get "completed" buy_milk = Js.Undefined)
    by (vm_compute; reflexivity).
  assert (Hf : find integer_literal shipped_task (PText "1")
               = Some (1, shipped_row)) by (vm_compute; reflexivity).
  split; [exact Hv|]. split; [exact Hd|]. split; [exact Hc|].
  split; [exact Hf|]. split; [vm_compute; discriminate|].
  split; [vm_compute; reflexivity|].
  exact (put_clears_what_is_omitted integer_literal false 160 shipped_task ∅
           buy_milk "1" 1 shipped_row Hv Hd Hc Hf).
Defined.

Lemma reachable_keys_and_times_sample :
  reachable integer_literal false 100 one_task
  ∧ tasks one_task !! 1 = Some milk_row
  ∧ 0 < 1 ≤ seq one_task
  ∧ created_at milk_row ≤ updated_at milk_row ≤ 100.
Proof.
  assert (Hk : tasks one_task !! 1 = Some milk_row)
    by (vm_compute; reflexivity).
  split; [exact one_task_reachable|]. split; [exact Hk|].
  exact (reachable_keys_and_times integer_literal false 100 one_task 1
           milk_row one_task_reachable Hk).
Defined.

Lemma flags_are_boolean_sample :
  reachable integer_literal false 100 one_task
  ∧ tasks one_task !! 1 = Some milk_row
  ∧ "false"%string ≠ "true"%string
  ∧ (completed milk_row = 0 ∨ completed milk_row = 1)
  ∧ where_completed (filter_of {[ "completed" := "true"%string ]})
      (1, milk_row)
    = negb (where_completed (filter_of {[ "completed" := "false"%string ]})
              (1, milk_row)).
Proof.
  assert (Hk : tasks one_task !! 1 = Some milk_row)
    by (vm_compute; reflexivity).
  assert (Hs : "false"%string ≠ "true"%string) by discriminate.
  split; [exact one_task_reachable|]. split; [exact Hk|]. split; [exact Hs|].
  exact (flags_are_boolean integer_literal false 100 one_task 1 milk_row
           "false" one_task_reachable Hk Hs).
Defined.

Lemma listing_bounds_sample :
  as_integer integer_literal
    (from_option PText (PInt 10) ((∅ : gmap string string) !! "limit"))
    = Some 10
  ∧ as_integer integer_literal
      (from_option PText (PInt 0) ((∅ : gmap string string) !! "offset"))
    = Some 0
  ∧ ∃ rows,
      listed integer_literal false 100 eleven_tasks ∅ = Some rows
      ∧ NoDup rows
      ∧ (length rows ≤ size (tasks eleven_tasks))%nat
      ∧ (0 ≤ 10 → (length rows ≤ Z.to_nat 10)%nat)
      ∧ ((∅ : gmap string string) !! "limit" = None → (length rows ≤ 10)%nat)
      ∧ (10 = 0 ∨ Z.of_nat (size (tasks eleven_tasks)) ≤ 0 → rows = []).
Proof.
  split; [vm_compute; reflexivity|]. split; [vm_compute; reflexivity|].
  apply (listing_bounds integer_literal false 100 eleven_tasks ∅ 10 0);
    vm_compute; reflexivity.
Defined.

Lemma pages_compose_sample :
  integer_literal "3" = Some 3
  ∧ integer_literal "2" = Some 2
  ∧ integer_literal "5" = Some (2 + 3)
  ∧ integer_literal "6" = Some (2 * 3)
  ∧ 0 ≤ 3
  ∧ 0 ≤ 2
  ∧ ∃ first second,
      listed integer_literal false 100 eleven_tasks (page_query "false" "3" "2")
        = Some first
      ∧ listed integer_literal false 100 eleven_tasks
          (page_query "false" "3" "5") = Some second
      ∧ listed integer_literal false 100 eleven_tasks
          (page_query "false" "6" "2") = Some (first ++ second).
Proof.
  do 4 (split; [vm_compute; reflexivity|]). do 2 (split; [lia|]).
  apply (pages_compose integer_literal false 100 eleven_tasks
           "false" "3" "2" "5" "6" 3 2);
    first [lia|vm_compute; reflexivity].
Defined.

Lemma one_task_is_older :
  ∀ k r, tasks one_task !! k = Some r → created_at r < 101.
Proof.
  assert (Ht : tasks one_task = {[ 1 := milk_row ]})
    by (vm_compute; reflexivity).
  intros k r. rewrite Ht. intros [_ <-]%lookup_singleton_Some. cbn. lia.
Defined.

Lemma newest_task_is_listed_first_sample :
  valid ship_release
  ∧ (∀ k r, tasks one_task !! k = Some r → created_at r < 101)
  ∧ (∅ : gmap string string) !! "completed" = None
  ∧ (∅ : gmap string string) !! "limit" = None
  ∧ (∅ : gmap string string) !! "offset" = None
  ∧ let db' := (serve integer_literal false 101 None one_task
                  (request_of POST Tasks ∅ ship_release)).1 in
    ∃ rest,
      listed integer_literal false 102 db' ∅
        = Some ((next_rowid one_task, created 101 ship_release) :: rest).
Proof.
  assert (Hv : valid ship_release) by (vm_compute; reflexivity).
  split; [exact Hv|]. split; [exact one_task_is_older|].
  do 3 (split; [reflexivity|]).
  exact (newest_task_is_listed_first integer_literal false 101 102 one_task
           ∅ ship_release Hv one_task_is_older eq_refl eq_refl eq_refl).
Defined.

Lemma server_error_only_from_paging_sample :
  let req := request_of GET Tasks {[ "limit" := "abc"%string ]} ∅ in
  let req' := request_of PUT (TaskId "7") ∅ buy_milk in
  malformed req = None
  ∧ malformed req' = None
  ∧ (status (serve integer_literal false 100 None one_task req).2 = 500 ↔
     method_of req = GET ∧ target_of req = Tasks
     ∧ (as_integer integer_literal
          (from_option PText (PInt 10) (query req !! "limit")) = None
        ∨ as_integer integer_literal
            (from_option PText (PInt 0) (query req !! "offset")) = None))
  ∧ status (serve integer_literal false 100 None one_task req).2 = 500
  ∧ status (serve integer_literal false 100 None one_task req').2 = 404
  ∧ status (serve integer_literal false 100 None one_task req').2
      ∈ [200; 201; 400; 404].
Proof.
  intros req req'.
  destruct (server_error_only_from_paging integer_literal false 100
              one_task req eq_refl) as (Hiff & _ & _).
  destruct (server_error_only_from_paging integer_literal false 100
              one_task req' eq_refl) as (_ & _ & Hother).
  do 2 (split; [reflexivity|]). split; [exact Hiff|].
  do 2 (split; [vm_compute; reflexivity|]).
  apply Hother. vm_compute. discriminate.
Defined.

Lemma unparsed_body_answer_sample :
  malformed cut_short = Some (raise "Unexpected end of JSON input")
  ∧ serve integer_literal false 100 None one_task cut_short
    = (one_task, {| status := 500;
                    content := Json (Error "Something went wrong!") |}).
Proof.
  split; [reflexivity|].
  exact (unparsed_body_answer integer_literal false 100 None one_task
           cut_short (raise "Unexpected end of JSON input") eq_refl).
Defined.

Lemma driver_failure_answer_sample :
  let req := request_of DELETE (TaskId "1") ∅ ∅ in
  let err := raise "SQLITE_IOERR: disk I/O error" in
  malformed req = None
  ∧ route (method_of req) (target_of req) = Some delete_task
  ∧ calls_database (delete_task req) = true
  ∧ serve integer_literal false 100 (Some err) one_task req
    = (one_task,
       {| status := 500;
          content := Html "Error: SQLITE_IOERR: disk I/O error" |}).
Proof.
  intros req err. do 3 (split; [reflexivity|]).
  exact (driver_failure_answer integer_literal false 100 err one_task req
           delete_task eq_refl eq_refl eq_refl).
Defined.

Lemma deleted_id_stays_free_sample :
  reachable integer_literal false 100 one_task
  ∧ find integer_literal one_task (PText "1") = Some (1, milk_row)
  ∧ rtc (step integer_literal false)
      (serve integer_literal false 110 None one_task
         (request_of DELETE (TaskId "1") ∅ ∅)).1
      refilled
  ∧ serve integer_literal false 130 None refilled
      (request_of GET (TaskId "1") ∅ ∅)
    = (refilled, {| status := 404;
                    content := Json (Message "Task not found" None) |}).
Proof.
  assert (Hf : find integer_literal one_task (PText "1") = Some (1, milk_row))
    by (vm_compute; reflexivity).
  split; [exact one_task_reachable|]. split; [exact Hf|].
  split; [exact emptied_then_refilled|].
  exact (deleted_id_stays_free integer_literal false 100 110 130 one_task
           refilled ∅ ∅ "1" 1 milk_row one_task_reachable Hf
           emptied_then_refilled).
Defined.

Lemma one_task_then_updated :
  rtc (step integer_literal false) one_task updated_task.
Proof.
  apply rtc_once.
  exists 160, None, (request_of PUT (TaskId "1") ∅ ship_release). reflexivity.
Defined.

Lemma created_at_is_permanent_sample :
  reachable integer_literal false 100 one_task
  ∧ rtc (step integer_literal false) one_task updated_task
  ∧ tasks one_task !! 1 = Some milk_row
  ∧ tasks updated_task !! 1 = Some (replaced 160 ship_release milk_row)
  ∧ created_at (replaced 160 ship_release milk_row) = created_at milk_row.
Proof.
  assert (Hk : tasks one_task !! 1 = Some milk_row)
    by (vm_compute; reflexivity).
  assert (Hk' : tasks updated_task !! 1
                = Some (replaced 160 ship_release milk_row))
    by (vm_compute; reflexivity).
  split; [exact one_task_reachable|]. split; [exact one_task_then_updated|].
  split; [exact Hk|]. split; [exact Hk'|].
  exact (created_at_is_permanent integer_literal false 100 one_task
           updated_task 1 milk_row (replaced 160 ship_release milk_row)
           one_task_reachable one_task_then_updated Hk Hk').
Defined.
